(** * xonsh/xoreutils/_posix.c : boot time and uptime

    A shallow embedding of the C extension module [_posix.c] and the
    properties of its three functions:

    - [_calc_uptime]   (lines 19-36)  current time minus boot time, as a double;
    - [_uptime_osx]    (lines 38-55)  boot time from [sysctlbyname "kern.boottime"];
    - [_uptime_posix]  (lines 65-84)  boot time from the utmpx [BOOT_TIME] record.

    The second [_uptime_osx] (lines 57-61, without [__APPLE__]) has no
    model: its body [Py_RETURN_NONE] lacks the semicolon and is not C.

    Integers are [Z] with the C conversions written out (LP64: [time_t] and
    [suseconds_t] are 64-bit signed, [unsigned] is 32-bit).  Doubles are
    IEEE 754 binary64 values, computed by the executable specification of
    [Stdlib.Floats.SpecFloat] (precision 53, emax 1024, round to nearest
    even).  Objects copied byte by byte ([memcpy], [sysctlbyname]) are
    little-endian byte lists.  Calls into the operating system go through
    a small state monad over [os_state], which also records the calls
    made. *)

From Stdlib Require Import ZArith QArith Qabs Qpower List Bool Lia Lqa String.
From Stdlib Require Import Floats.SpecFloat.
Import ListNotations.
Local Open Scope Z_scope.

(* ------------------------------------------------------------------ *)
(** ** C integer types *)

Module CInt.

(** Two's complement reduction to [w] bits. *)
Definition wrap_signed (w z : Z) : Z :=
  (z + 2 ^ (w - 1)) mod 2 ^ w - 2 ^ (w - 1).

(** [time_t] and [suseconds_t]: 64-bit signed on LP64. *)
Definition long_bits : Z := 64.
Definition to_long (z : Z) : Z := wrap_signed long_bits z.

(** The cast [(unsigned)e]: reduction modulo 2^32. *)
Definition unsigned_bits : Z := 32.
Definition to_unsigned (z : Z) : Z := z mod 2 ^ unsigned_bits.

Definition in_long (z : Z) : Prop := - 2 ^ 63 <= z < 2 ^ 63.

End CInt.
Import CInt.

(* ------------------------------------------------------------------ *)
(** ** struct timeval *)

Record timeval := mk_timeval { tv_sec : Z; tv_usec : Z }.

(** The microsecond field is normalised. *)
Definition usec_ok (t : timeval) : Prop := 0 <= tv_usec t < 1000000.

(** A timestamp: seconds that fit [time_t], microseconds normalised. *)
Definition timeval_ok (t : timeval) : Prop :=
  in_long (tv_sec t) /\ usec_ok t.

(** The instant a timestamp denotes, in microseconds since the epoch. *)
Definition micros (t : timeval) : Z := tv_sec t * 1000000 + tv_usec t.

(* ------------------------------------------------------------------ *)
(** ** Objects in memory *)

Module Mem.

(** The [n] bytes of [z], least significant first. *)
Fixpoint le_bytes (n : nat) (z : Z) : list Z :=
  match n with
  | O => []
  | S n' => z mod 256 :: le_bytes n' (z / 256)
  end.

(** The unsigned integer a run of bytes holds. *)
Fixpoint le_value (bs : list Z) : Z :=
  match bs with
  | [] => 0
  | b :: bs' => b mod 256 + 256 * le_value bs'
  end.

(** The signed integer on the [n] bytes at offset [off]. *)
Definition read_int (off n : nat) (bs : list Z) : Z :=
  wrap_signed (8 * Z.of_nat n) (le_value (List.firstn n (List.skipn off bs))).

(** The object [dst] once its first [n] bytes are overwritten with the
    first [n] bytes of [src]. *)
Definition memcpy (dst src : list Z) (n : nat) : list Z :=
  List.firstn n src ++ List.skipn n dst.

(** [struct timeval] on Darwin: [tv_sec] on 8 bytes, [tv_usec] on 4, and
    4 bytes of padding. *)
Definition timeval_of_bytes_darwin (bs : list Z) : timeval :=
  {| tv_sec := read_int 0 8 bs; tv_usec := read_int 8 4 bs |}.

Definition bytes_of_timeval_darwin (t : timeval) : list Z :=
  le_bytes 8 (tv_sec t) ++ le_bytes 4 (tv_usec t) ++ [0; 0; 0; 0].

(** [struct timeval] on Linux LP64: [tv_sec] and [tv_usec] on 8 bytes
    each. *)
Definition timeval_of_bytes_linux (bs : list Z) : timeval :=
  {| tv_sec := read_int 0 8 bs; tv_usec := read_int 8 8 bs |}.

End Mem.

(* ------------------------------------------------------------------ *)
(** ** binary64 *)

Module B64.

Definition prec : Z := 53.
Definition emax : Z := 1024.

(** Conversion of an integer to double (round to nearest even). *)
Definition of_Z (z : Z) : spec_float := binary_normalize prec emax z 0 false.

Definition add : spec_float -> spec_float -> spec_float := SFadd prec emax.
Definition div : spec_float -> spec_float -> spec_float := SFdiv prec emax.

(** Sign bit clear and not a NaN. *)
Definition nonneg (x : spec_float) : bool :=
  match x with
  | S754_zero s | S754_infinity s | S754_finite s _ _ => negb s
  | S754_nan => false
  end.

(** Strictly below zero. *)
Definition negative (x : spec_float) : bool :=
  match x with
  | S754_infinity s | S754_finite s _ _ => s
  | S754_zero _ | S754_nan => false
  end.

Definition is_finite (x : spec_float) : bool :=
  match x with
  | S754_zero _ | S754_finite _ _ _ => true
  | _ => false
  end.

(** The rational a finite double stands for: (-1)^s * m * 2^e. *)
Definition value (x : spec_float) : option Q :=
  match x with
  | S754_zero _ => Some 0%Q
  | S754_finite s m e => Some (inject_Z (cond_Zopp s (Zpos m)) * Qpower 2 e)%Q
  | _ => None
  end.

(** [x] is a finite double whose value is the rational [q]. *)
Definition has_value (x : spec_float) (q : Q) : Prop :=
  match value x with
  | Some v => (v == q)%Q
  | None => False
  end.

(** [m * 2^e] as a rational. *)
Definition F2Q (m e : Z) : Q := (inject_Z m * Qpower 2 e)%Q.

(** The relative error of one rounding: 2^-53. *)
Definition eps : Q := (1 # 9007199254740992)%Q.

(** Where the remainder [r] of a division by [d] lies relative to d/2. *)
Definition loc_of (r d : Z) : location :=
  if r =? 0 then loc_Exact else loc_Inexact (2 * r ?= d).

(** [mrs] is the quotient of [num] by [den], with its round and sticky
    bits telling where the remainder lies. *)
Definition located (num den : Z) (mrs : shr_record) : Prop :=
  shr_m mrs = num / den /\
  loc_of_shr_record mrs = loc_of (num mod den) den.

End B64.

(* ------------------------------------------------------------------ *)
(** ** _calc_uptime, the arithmetic *)

(** Lines 27-33: [tv] after boot time [bt] has been subtracted from it. *)
Definition timeval_sub (tv bt : timeval) : timeval :=
  let tv1 :=
    if tv_usec tv <? tv_usec bt then
      {| tv_sec := to_long (tv_sec tv - 1);
         tv_usec := to_long (to_long (1000000 - tv_usec bt) + tv_usec tv) |}
    else
      {| tv_sec := tv_sec tv;
         tv_usec := to_long (tv_usec tv - tv_usec bt) |} in
  {| tv_sec := to_long (tv_sec tv1 - tv_sec bt); tv_usec := tv_usec tv1 |}.

(** The double [s + u / 1000000.0] for two [unsigned] operands. *)
Definition seconds_double (s u : Z) : spec_float :=
  B64.add (B64.of_Z s) (B64.div (B64.of_Z u) (B64.of_Z 1000000)).

(** Line 35: [(unsigned)tv.tv_sec + (unsigned)tv.tv_usec / 1000000.0]. *)
Definition timeval_double (tv : timeval) : spec_float :=
  seconds_double (to_unsigned (tv_sec tv)) (to_unsigned (tv_usec tv)).

(** [_calc_uptime] once [gettimeofday] has answered: [None] is a non-zero
    return code (line 23, [return -1]), [Some tv] the time it stored. *)
Definition calc_uptime_at (now : option timeval) (bt : timeval) : spec_float :=
  match now with
  | None => B64.of_Z (-1)
  | Some tv => timeval_double (timeval_sub tv bt)
  end.

(* ------------------------------------------------------------------ *)
(** ** The operating system *)

(** utmpx entry types (POSIX). *)
Inductive ut_type_t :=
| EMPTY | BOOT_TIME | OLD_TIME | NEW_TIME
| USER_PROCESS | INIT_PROCESS | LOGIN_PROCESS | DEAD_PROCESS.

Definition ut_type_eqb (a b : ut_type_t) : bool :=
  match a, b with
  | EMPTY, EMPTY | BOOT_TIME, BOOT_TIME | OLD_TIME, OLD_TIME
  | NEW_TIME, NEW_TIME | USER_PROCESS, USER_PROCESS
  | INIT_PROCESS, INIT_PROCESS | LOGIN_PROCESS, LOGIN_PROCESS
  | DEAD_PROCESS, DEAD_PROCESS => true
  | _, _ => false
  end.

(** The members of [struct utmpx] the module touches or [getutxid]
    reads, and [ut_addr_v6], the four [int32_t] that glibc stores right
    after [ut_tv]. *)
Record utmpx := mk_utmpx {
  ut_type : ut_type_t;
  ut_id : string;
  ut_tv : timeval;
  ut_addr_v6 : list Z
}.

(** How the platform declares the member [ut_tv]. *)
Inductive utmpx_abi :=
| UT_TV_TIMEVAL      (* a [struct timeval], as POSIX has it (Darwin) *)
| UT_TV_INT32_PAIR.  (* two [int32_t], 8 bytes in all (glibc on x86_64) *)

Inductive os_call :=
| CallGettimeofday | CallSysctlbyname | CallGetutxid | CallEndutxent.

Record os_state := mk_os {
  utx_file : option (list utmpx);   (* accounting database; None: cannot be opened *)
  utx_handle : option nat;          (* None: closed; Some k: open, k entries read *)
  wall_clock : option timeval;      (* None: gettimeofday fails *)
  kern_boottime : option (list Z);  (* the bytes of the kernel's value; None: no such parameter *)
  os_trace : list os_call           (* calls so far, oldest first *)
}.

Definition OS (A : Type) : Type := os_state -> A * os_state.

Definition ret {A} (a : A) : OS A := fun s => (a, s).
Definition bind {A B} (m : OS A) (k : A -> OS B) : OS B :=
  fun s => let (a, s') := m s in k a s'.

Declare Scope os_scope.
Delimit Scope os_scope with os.
Notation "x <- m ;; k" := (bind m (fun x => k))
  (at level 61, m at next level, right associativity) : os_scope.
Notation "m ;;; k" := (bind m (fun _ => k))
  (at level 61, right associativity) : os_scope.
Local Open Scope os_scope.

Definition run {A} (m : OS A) (s : os_state) : A := fst (m s).
Definition after {A} (m : OS A) (s : os_state) : os_state := snd (m s).

(** The calls [m] makes when it runs in state [s]. *)
Definition calls_made {A} (m : OS A) (s : os_state) : list os_call :=
  List.skipn (List.length (os_trace s)) (os_trace (after m s)).

Definition log_call (c : os_call) (s : os_state) : os_state :=
  {| utx_file := utx_file s; utx_handle := utx_handle s;
     wall_clock := wall_clock s; kern_boottime := kern_boottime s;
     os_trace := os_trace s ++ [c] |}.

Definition set_handle (h : option nat) (s : os_state) : os_state :=
  {| utx_file := utx_file s; utx_handle := h;
     wall_clock := wall_clock s; kern_boottime := kern_boottime s;
     os_trace := os_trace s |}.

(** [gettimeofday(&tv, NULL)]: [Some tv] for return code 0. *)
Definition gettimeofday : OS (option timeval) :=
  fun s => (wall_clock s, log_call CallGettimeofday s).

(** Does entry [r] answer the request [id]?  (POSIX [getutxid].) *)
Definition is_process (t : ut_type_t) : bool :=
  match t with
  | USER_PROCESS | INIT_PROCESS | LOGIN_PROCESS | DEAD_PROCESS => true
  | _ => false
  end.

Definition utx_match (id r : utmpx) : bool :=
  match ut_type id with
  | BOOT_TIME | OLD_TIME | NEW_TIME => ut_type_eqb (ut_type r) (ut_type id)
  | EMPTY => false
  | _ => is_process (ut_type r) && String.eqb (ut_id r) (ut_id id)
  end.

(** First entry of [l] satisfying [p], with the number of entries read up
    to and including it. *)
Fixpoint scan (p : utmpx -> bool) (l : list utmpx) (n : nat) : option (utmpx * nat) :=
  match l with
  | [] => None
  | r :: l' => if p r then Some (r, S n) else scan p l' (S n)
  end.

(** [getutxid(&id)]: opens the database when it is not open yet, reads on
    from the current position, and returns the first matching entry or
    NULL.  The handle stays open either way. *)
Definition getutxid (id : utmpx) : OS (option utmpx) :=
  fun s =>
    let s := log_call CallGetutxid s in
    match utx_file s with
    | None => (None, s)
    | Some db =>
        let pos := match utx_handle s with Some k => k | None => O end in
        match scan (utx_match id) (List.skipn pos db) pos with
        | Some (r, pos') => (Some r, set_handle (Some pos') s)
        | None => (None, set_handle (Some (Nat.max pos (List.length db))) s)
        end
    end.

(** [endutxent()]: closes the database. *)
Definition endutxent : OS unit :=
  fun s => (tt, set_handle None (log_call CallEndutxent s)).

(** [sizeof(struct timeval)] on LP64. *)
Definition sizeof_timeval : Z := 16.

Record sysctl_reply := mk_reply { sc_ret : Z; sc_buf : list Z; sc_len : Z }.

(** [sysctlbyname(name, &buf, &len, NULL, 0)] (sysctl(3)): -1 when the
    name is unknown; when the value is longer than [len] bytes, as much
    of it as fits is copied and the call returns -1 (ENOMEM); otherwise
    the value is copied over the start of the buffer, [len] is set to its
    size and the call returns 0.  The bytes of the buffer past the value
    are left as they were. *)
Definition sysctlbyname (name : string) (buf : list Z) (len : Z) : OS sysctl_reply :=
  fun s =>
    let s := log_call CallSysctlbyname s in
    if negb (String.eqb name "kern.boottime") then
      (mk_reply (-1) buf len, s)
    else
      match kern_boottime s with
      | None => (mk_reply (-1) buf len, s)
      | Some v =>
          if len <? Z.of_nat (List.length v) then
            (mk_reply (-1) (Mem.memcpy buf v (Z.to_nat len)) len, s)
          else
            (mk_reply 0 (Mem.memcpy buf v (List.length v)) (Z.of_nat (List.length v)), s)
      end.

(* ------------------------------------------------------------------ *)
(** ** The host's objects *)

Inductive PyObject :=
| Py_None
| PyFloat (d : spec_float).

(** [Py_BuildValue("d", x)]. *)
Definition Py_BuildValue_d (x : spec_float) : PyObject := PyFloat x.

(* ------------------------------------------------------------------ *)
(** ** The three functions *)

(** Lines 19-36. *)
Definition _calc_uptime (bt : timeval) : OS spec_float :=
  now <- gettimeofday ;;
  ret (calc_uptime_at now bt).

(** Lines 38-55, the function compiled under [__APPLE__].  [bt0] holds
    the bytes of the uninitialised local [bt]. *)
Definition _uptime_osx (bt0 : list Z) : OS PyObject :=
  r <- sysctlbyname "kern.boottime" bt0 sizeof_timeval ;;
  if negb (sc_ret r =? 0) then ret Py_None
  else
    d <- _calc_uptime (Mem.timeval_of_bytes_darwin (sc_buf r)) ;;
    ret (Py_BuildValue_d d).

(** Line 68: [struct utmpx id = {.ut_type = BOOT_TIME}]. *)
Definition boot_id : utmpx :=
  {| ut_type := BOOT_TIME; ut_id := EmptyString; ut_tv := mk_timeval 0 0;
     ut_addr_v6 := [0; 0; 0; 0] |}.

(** Line 80: [memcpy(&bt, &(res->ut_tv), sizeof(struct timeval))] copies
    16 bytes starting at [ut_tv].  Where [ut_tv] is a [struct timeval]
    these are the member itself.  Where it is two [int32_t], they are its
    8 bytes and the first two words of [ut_addr_v6], read back as the two
    8-byte fields of [bt]. *)
Definition memcpy_ut_tv (abi : utmpx_abi) (r : utmpx) : timeval :=
  match abi with
  | UT_TV_TIMEVAL => ut_tv r
  | UT_TV_INT32_PAIR =>
      Mem.timeval_of_bytes_linux
        (List.firstn 16
           (Mem.le_bytes 4 (tv_sec (ut_tv r)) ++ Mem.le_bytes 4 (tv_usec (ut_tv r))
            ++ List.flat_map (Mem.le_bytes 4) (ut_addr_v6 r)))
  end.

(** Lines 65-84. *)
Definition _uptime_posix (abi : utmpx_abi) : OS PyObject :=
  let id := boot_id in
  res <- getutxid id ;;
  match res with
  | None =>
      endutxent ;;; ret Py_None
  | Some r =>
      let bt := memcpy_ut_tv abi r in
      endutxent ;;;
      d <- _calc_uptime bt ;;
      ret (Py_BuildValue_d d)
  end.

(* ------------------------------------------------------------------ *)
(** ** What the properties are stated with *)

(** The time from [bt] to [tv] in seconds, as a rational. *)
Definition elapsed_seconds (tv bt : timeval) : Q :=
  (micros tv - micros bt) # 1000000.

(** [d] is a finite double less than half a microsecond away from [q]:
    rounded to the microsecond, [d] is [q]. *)
Definition microsecond_accurate (d : spec_float) (q : Q) : Prop :=
  exists v, B64.value d = Some v /\ (Qabs (v - q) < 1 # 2000000)%Q.

(** The contract of the spec: absence, or a non-negative number. *)
Definition absent_or_nonneg (r : PyObject) : Prop :=
  match r with
  | Py_None => True
  | PyFloat d => B64.nonneg d = true
  end.

(** What the entry points return in state [s]. *)
Definition outcome (s : os_state) (r : PyObject) : Prop :=
  r = Py_None \/
  (wall_clock s = None /\ r = PyFloat (B64.of_Z (-1))) \/
  (exists d, r = PyFloat d /\ B64.nonneg d = true /\ B64.is_finite d = true).

(* ------------------------------------------------------------------ *)
(** ** Example states and timestamps *)

Module Examples.

(** A database whose second entry is the boot record. *)
Definition boot_record : utmpx :=
  mk_utmpx BOOT_TIME "~~" (mk_timeval 1000 500000) [0; 0; 0; 0].

Definition login_record : utmpx :=
  mk_utmpx USER_PROCESS "ts/0" (mk_timeval 1003 17) [16777343; 0; 0; 0].

Definition utx_with_boot : list utmpx := [login_record; boot_record].

(** The boot record is there and [gettimeofday] fails. *)
Definition st_clock_fails : os_state :=
  mk_os (Some utx_with_boot) None None
        (Some (Mem.bytes_of_timeval_darwin (mk_timeval 1000 500000))) [].


(** No boot record in the database. *)
Definition st_no_boot : os_state :=
  mk_os (Some [login_record]) None (Some (mk_timeval 1005 250000)) None [].


(** Two contents of the 16 uninitialised bytes of [bt]. *)
Definition bt_zeros : list Z := List.repeat 0 16.
Definition bt_stale : list Z :=
  List.repeat 0 8 ++ Mem.le_bytes 4 500000 ++ List.repeat 0 4.

Definition epoch : timeval := mk_timeval 0 0.
Definition after_2_32 : timeval := mk_timeval 4294967296 0.
Definition half_past_epoch : timeval := mk_timeval 0 500000.
Definition quarter_past_2_32 : timeval := mk_timeval 4294967301 250000.

End Examples.

(* ------------------------------------------------------------------ *)
(** ** What further properties are stated with *)

(** The state with the clock showing [c]. *)
Definition set_clock (c : option timeval) (s : os_state) : os_state :=
  {| utx_file := utx_file s; utx_handle := utx_handle s;
     wall_clock := c; kern_boottime := kern_boottime s;
     os_trace := os_trace s |}.

(** The largest value line 35 can produce from two [unsigned] operands,
    rounded up to a whole second. *)
Definition uptime_max : Q := 4294971590.

(** What a host can rely on about a result in state [s]: a number is -1
    when the clock failed, and between 0 and [uptime_max] otherwise. *)
Definition ranged (s : os_state) (r : PyObject) : Prop :=
  match r with
  | Py_None => True
  | PyFloat d =>
      exists v, B64.value d = Some v /\
                match wall_clock s with
                | None => (v == -1)%Q
                | Some _ => (0 <= v <= uptime_max)%Q
                end
  end.


(** [int], the type of [tv_usec] on Darwin: 32-bit signed. *)
Definition to_int (z : Z) : Z := wrap_signed 32 z.

(** Lines 27-33 where [suseconds_t] is [int]: the microseconds are
    computed in 32 bits, the seconds in 64 as before. *)
Definition timeval_sub_int_usec (tv bt : timeval) : timeval :=
  let tv1 :=
    if tv_usec tv <? tv_usec bt then
      {| tv_sec := to_long (tv_sec tv - 1);
         tv_usec := to_int (to_int (1000000 - tv_usec bt) + tv_usec tv) |}
    else
      {| tv_sec := tv_sec tv;
         tv_usec := to_int (tv_usec tv - tv_usec bt) |} in
  {| tv_sec := to_long (tv_sec tv1 - tv_sec bt); tv_usec := tv_usec tv1 |}.
(* ------------------------------------------------------------------ *)
(** ** Integer conversions *)

(** Goals [in_long z] for [z] bounded by hypotheses in the context. *)
Ltac fits_long :=
  unfold in_long; change (2 ^ 63) with 9223372036854775808; lia.

Section Conversions.

Lemma to_long_small z : in_long z -> to_long z = z.
Proof.
  unfold in_long, to_long, wrap_signed, long_bits. intros H.
  change (2 ^ (64 - 1)) with 9223372036854775808.
  change (2 ^ 64) with 18446744073709551616.
  change (2 ^ 63) with 9223372036854775808 in H.
  rewrite Z.mod_small; lia.
Qed.

Lemma to_unsigned_to_long z : to_unsigned (to_long z) = to_unsigned z.
Proof.
  unfold to_unsigned, to_long, wrap_signed, long_bits, unsigned_bits.
  change (2 ^ (64 - 1)) with 9223372036854775808.
  change (2 ^ 64) with (4294967296 * 4294967296).
  change (2 ^ 32) with 4294967296.
  set (q := (z + 9223372036854775808) / (4294967296 * 4294967296)).
  assert (E : (z + 9223372036854775808) mod (4294967296 * 4294967296)
              = z + 9223372036854775808 - (4294967296 * 4294967296) * q).
  { unfold q. rewrite Z.mod_eq; lia. }
  rewrite E.
  replace (z + 9223372036854775808 - 4294967296 * 4294967296 * q - 9223372036854775808)
    with (z + (- (4294967296 * q)) * 4294967296) by ring.
  apply Z.mod_add. lia.
Qed.

(** Wrapping an operand first does not change a wrapped difference. *)
Lemma to_long_sub a b : to_long (to_long a - b) = to_long (a - b).
Proof.
  unfold to_long, wrap_signed, long_bits.
  change (2 ^ (64 - 1)) with 9223372036854775808.
  change (2 ^ 64) with 18446744073709551616.
  set (q := (a + 9223372036854775808) / 18446744073709551616).
  assert (E : (a + 9223372036854775808) mod 18446744073709551616
              = a + 9223372036854775808 - 18446744073709551616 * q).
  { unfold q. rewrite Z.mod_eq; lia. }
  rewrite E. f_equal.
  replace (a + 9223372036854775808 - 18446744073709551616 * q - 9223372036854775808
           - b + 9223372036854775808)
    with (a - b + 9223372036854775808 + (- q) * 18446744073709551616) by ring.
  apply Z.mod_add. lia.
Qed.

Lemma to_unsigned_range z : 0 <= to_unsigned z < 4294967296.
Proof.
  unfold to_unsigned, unsigned_bits. change (2 ^ 32) with 4294967296.
  apply Z.mod_pos_bound. lia.
Qed.

Lemma to_unsigned_small z : 0 <= z < 4294967296 -> to_unsigned z = z.
Proof.
  unfold to_unsigned, unsigned_bits. change (2 ^ 32) with 4294967296.
  apply Z.mod_small.
Qed.

End Conversions.

(* ------------------------------------------------------------------ *)
(** ** The subtraction of lines 27-33 *)

Section Subtraction.

Variables tv bt : timeval.
Hypothesis Htv : usec_ok tv.
Hypothesis Hbt : usec_ok bt.

(** With normalised microseconds the subtraction leaves the floor
    quotient of the difference by 10^6, reduced to [time_t], and its
    remainder. *)
Lemma timeval_sub_wrap :
  timeval_sub tv bt =
  {| tv_sec := to_long ((micros tv - micros bt) / 1000000); tv_usec := (micros tv - micros bt) mod 1000000 |}.
Proof.
  unfold usec_ok in *. unfold timeval_sub, micros.
  destruct (Z.ltb_spec (tv_usec tv) (tv_usec bt)); cbn [tv_sec tv_usec].
  - rewrite to_long_sub.
    rewrite (to_long_small (1000000 - tv_usec bt))
      by fits_long.
    rewrite (to_long_small (1000000 - tv_usec bt + tv_usec tv))
      by fits_long.
    f_equal.
    + f_equal.
      apply (Z.div_unique_pos _ _ _ (1000000 - tv_usec bt + tv_usec tv)); lia.
    + apply (Z.mod_unique_pos _ _ (tv_sec tv - 1 - tv_sec bt)); lia.
  - rewrite (to_long_small (tv_usec tv - tv_usec bt))
      by fits_long.
    f_equal.
    + f_equal. apply (Z.div_unique_pos _ _ _ (tv_usec tv - tv_usec bt)); lia.
    + apply (Z.mod_unique_pos _ _ (tv_sec tv - tv_sec bt)); lia.
Qed.

(** When the second delta fits [time_t] nothing is lost. *)
Lemma timeval_sub_div_mod :
  in_long ((micros tv - micros bt) / 1000000) ->
  timeval_sub tv bt =
  {| tv_sec := (micros tv - micros bt) / 1000000; tv_usec := (micros tv - micros bt) mod 1000000 |}.
Proof.
  intros H. rewrite timeval_sub_wrap, (to_long_small _ H). reflexivity.
Qed.

Lemma timeval_sub_micros :
  in_long ((micros tv - micros bt) / 1000000) ->
  micros (timeval_sub tv bt) = micros tv - micros bt.
Proof.
  intros H. rewrite (timeval_sub_div_mod H). unfold micros at 1. cbn [tv_sec tv_usec].
  pose proof (Z.div_mod (micros tv - micros bt) 1000000). lia.
Qed.

(** The seconds reach line 35 modulo 2^32 whatever their size. *)
Lemma calc_uptime_at_div_mod :
  calc_uptime_at (Some tv) bt =
  seconds_double (to_unsigned ((micros tv - micros bt) / 1000000))
                 ((micros tv - micros bt) mod 1000000).
Proof.
  unfold calc_uptime_at, timeval_double.
  rewrite timeval_sub_wrap. cbn [tv_sec tv_usec].
  rewrite to_unsigned_to_long.
  f_equal. apply to_unsigned_small.
  pose proof (Z.mod_pos_bound (micros tv - micros bt) 1000000). lia.
Qed.

End Subtraction.

(* ------------------------------------------------------------------ *)
(** ** Bytes and integers *)

Section MemLemmas.

Import Mem.

Lemma le_bytes_length n : forall z, List.length (le_bytes n z) = n.
Proof. induction n as [| n IH]; intros z; cbn; [ reflexivity | rewrite IH; reflexivity ]. Qed.

Lemma le_value_le_bytes n : forall z, le_value (le_bytes n z) = z mod 256 ^ Z.of_nat n.
Proof.
  induction n as [| n IH]; intros z.
  - cbn. rewrite Z.mod_1_r. reflexivity.
  - cbn [le_bytes le_value]. rewrite IH, Z.mod_mod by lia.
    rewrite Nat2Z.inj_succ, Z.pow_succ_r by lia.
    rewrite Z.rem_mul_r by (try apply Z.pow_pos_nonneg; lia).
    reflexivity.
Qed.



(** A value that fills the buffer leaves nothing of its old content to
    read. *)
Lemma timeval_of_full_buffer bt0 v :
  List.length v = 16%nat ->
  timeval_of_bytes_darwin (memcpy bt0 v (List.length v)) = timeval_of_bytes_darwin v.
Proof.
  intros Hl. unfold memcpy. rewrite List.firstn_all.
  do 16 (destruct v as [| ? v]; [ discriminate | ]).
  destruct v; [ | discriminate ]. reflexivity.
Qed.

(** The Darwin layout stores and reads back a timestamp whose fields fit
    their types. *)
Lemma timeval_darwin_round_trip t :
  in_long (tv_sec t) -> - 2 ^ 31 <= tv_usec t < 2 ^ 31 ->
  timeval_of_bytes_darwin (bytes_of_timeval_darwin t) = t.
Proof.
  intros Hs Hu. destruct t as [sec usec]. cbn [tv_sec tv_usec] in *.
  unfold in_long in Hs.
  change (2 ^ 63) with 9223372036854775808 in Hs.
  change (2 ^ 31) with 2147483648 in Hu.
  unfold timeval_of_bytes_darwin, bytes_of_timeval_darwin, read_int.
  cbn [tv_sec tv_usec].
  replace (List.firstn 8 (List.skipn 0 (le_bytes 8 sec ++ le_bytes 4 usec ++ [0; 0; 0; 0])))
    with (le_bytes 8 sec) by reflexivity.
  replace (List.firstn 4 (List.skipn 8 (le_bytes 8 sec ++ le_bytes 4 usec ++ [0; 0; 0; 0])))
    with (le_bytes 4 usec) by reflexivity.
  rewrite !le_value_le_bytes. unfold wrap_signed.
  change (8 * Z.of_nat 8) with 64. change (8 * Z.of_nat 4) with 32.
  change (256 ^ Z.of_nat 8) with 18446744073709551616.
  change (256 ^ Z.of_nat 4) with 4294967296.
  change (2 ^ (64 - 1)) with 9223372036854775808.
  change (2 ^ 64) with 18446744073709551616.
  change (2 ^ (32 - 1)) with 2147483648.
  change (2 ^ 32) with 4294967296.
  rewrite (Z.add_mod_idemp_l sec 9223372036854775808 18446744073709551616) by lia.
  rewrite (Z.add_mod_idemp_l usec 2147483648 4294967296) by lia.
  rewrite (Z.mod_small (sec + 9223372036854775808)) by lia.
  rewrite (Z.mod_small (usec + 2147483648)) by lia.
  f_equal; lia.
Qed.


End MemLemmas.

(* ------------------------------------------------------------------ *)
(** ** Rounding to binary64

    What [binary_round_aux] (the rounding step shared by the conversion
    from integers, [SFadd] and [SFdiv]) returns, for a positive number in
    the normal range. *)

Module Rounding.

Import B64.

(** *** Number of binary digits *)

Lemma digits2_pos_bounds p :
  2 ^ (Zpos (digits2_pos p) - 1) <= Zpos p < 2 ^ Zpos (digits2_pos p).
Proof.
  induction p as [p IH | p IH |]; cbn [digits2_pos].
  - rewrite Pos2Z.inj_succ.
    replace (Z.succ (Zpos (digits2_pos p)) - 1) with (Z.succ (Zpos (digits2_pos p) - 1)) by lia.
    rewrite !Z.pow_succ_r by lia. lia.
  - rewrite Pos2Z.inj_succ.
    replace (Z.succ (Zpos (digits2_pos p)) - 1) with (Z.succ (Zpos (digits2_pos p) - 1)) by lia.
    rewrite !Z.pow_succ_r by lia. lia.
  - cbn. lia.
Qed.

Lemma Zdigits2_bounds m :
  0 < m -> 2 ^ (Zdigits2 m - 1) <= m < 2 ^ Zdigits2 m.
Proof.
  destruct m as [| p | p]; try lia. intros _. apply digits2_pos_bounds.
Qed.

Lemma Zdigits2_pos m : 0 < m -> 0 < Zdigits2 m.
Proof. destruct m; cbn; lia. Qed.

Lemma Zdigits2_unique m d :
  2 ^ (d - 1) <= m < 2 ^ d -> 0 < d -> Zdigits2 m = d.
Proof.
  intros [Hlo Hhi] Hd.
  assert (Hm : 0 < m) by (pose proof (Z.pow_pos_nonneg 2 (d - 1)); lia).
  pose proof (Zdigits2_bounds m Hm) as [Hlo' Hhi'].
  pose proof (Zdigits2_pos m Hm) as Hp.
  assert (Zdigits2 m - 1 < d).
  { apply (Z.pow_lt_mono_r_iff 2); lia. }
  assert (d - 1 < Zdigits2 m).
  { apply (Z.pow_lt_mono_r_iff 2); lia. }
  lia.
Qed.

Lemma Zdigits2_le m d : 0 < m -> m < 2 ^ d -> 0 <= d -> Zdigits2 m <= d.
Proof.
  intros Hm Hlt Hd.
  pose proof (Zdigits2_bounds m Hm) as [Hlo _].
  pose proof (Zdigits2_pos m Hm).
  assert (Zdigits2 m - 1 < d); [ apply (Z.pow_lt_mono_r_iff 2); lia | lia ].
Qed.

(** *** Locations *)

Lemma located_of_loc num den :
  located num den (shr_record_of_loc (num / den) (loc_of (num mod den) den)).
Proof.
  unfold located. destruct (loc_of (num mod den) den) as [| []]; cbn; auto.
Qed.

Lemma new_location_loc_of d r :
  0 < d -> 0 <= r < d -> new_location d r = loc_of r d.
Proof.
  intros Hd Hr. unfold new_location.
  destruct (Z.even d) eqn:Ev;
    unfold new_location_even, new_location_odd, loc_of;
    destruct (Z.eqb_spec r 0) as [-> | Hr0]; try reflexivity.
  - f_equal.
    assert (Hodd : Z.odd d = true) by (rewrite <- Z.negb_even, Ev; reflexivity).
    apply Z.odd_spec in Hodd. destruct Hodd as [k Hk].
    destruct (Z.compare_spec (2 * r + 1) d), (Z.compare_spec (2 * r) d);
      try reflexivity; lia.
Qed.

Lemma shr_1_located num den mrs :
  0 <= num -> 0 < den ->
  located num den mrs -> located num (2 * den) (shr_1 mrs).
Proof.
  intros Hnum Hden [Hm Hl].
  pose proof (Z.div_mod num den ltac:(lia)) as Hdm.
  pose proof (Z.mod_pos_bound num den Hden) as Hmod.
  pose proof (Z.div_pos num den Hnum Hden) as Hq.
  set (t := num mod den) in *. set (q := num / den) in *.
  destruct mrs as [m r s]. cbn [shr_m] in Hm. subst m.
  assert (Hs : orb r s = negb (t =? 0)).
  { unfold loc_of in Hl. cbn [loc_of_shr_record] in Hl.
    destruct (Z.eqb_spec t 0); destruct r, s; cbn [orb negb]; congruence. }
  clear Hl.
  assert (Hcase : forall p b,
             q = 2 * p + Z.b2z b -> 0 <= p ->
             located num (2 * den) (Build_shr_record p b (orb r s))).
  { intros p b Hqp Hp. unfold located. cbn [shr_m].
    rewrite Hqp in Hdm.
    assert (Hb : 0 <= Z.b2z b * den + t < 2 * den)
      by (destruct b; cbn [Z.b2z]; lia).
    assert (Hdiv : num / (2 * den) = p).
    { symmetry. apply (Z.div_unique_pos _ _ _ (Z.b2z b * den + t)); [ exact Hb | ].
      rewrite Hdm. ring. }
    assert (Hrem : num mod (2 * den) = Z.b2z b * den + t).
    { symmetry. apply (Z.mod_unique_pos _ _ p); [ exact Hb | ].
      rewrite Hdm. ring. }
    split; [ congruence | ].
    rewrite Hrem, Hs. unfold loc_of.
    destruct b; cbn [Z.b2z loc_of_shr_record];
      destruct (Z.eqb_spec t 0) as [Ht | Ht]; cbn [negb].
    - rewrite Ht. replace (1 * den + 0 =? 0) with false by (symmetry; apply Z.eqb_neq; lia).
      f_equal. symmetry. apply Z.compare_eq_iff. lia.
    - replace (1 * den + t =? 0) with false by (symmetry; apply Z.eqb_neq; lia).
      f_equal. symmetry. apply Z.compare_gt_iff. lia.
    - rewrite Ht. reflexivity.
    - replace (0 * den + t =? 0) with false by (symmetry; apply Z.eqb_neq; lia).
      f_equal. symmetry. apply Z.compare_lt_iff. lia. }
  unfold shr_1.
  destruct q as [| [p | p |] | p]; try lia.
  - apply (Hcase 0 false); cbn; lia.
  - apply (Hcase (Zpos p) true); cbn; lia.
  - apply (Hcase (Zpos p) false); cbn; lia.
  - apply (Hcase 0 true); cbn; lia.
Qed.

Lemma iter_pos_shr_1_located p : forall num den mrs,
  0 <= num -> 0 < den ->
  located num den mrs ->
  located num (den * 2 ^ Zpos p) (iter_pos shr_1 p mrs).
Proof.
  induction p as [p IH | p IH |]; intros num den mrs Hnum Hden H; cbn [iter_pos].
  - apply shr_1_located in H; try assumption.
    apply IH in H; try lia. apply IH in H; try nia.
    replace (den * 2 ^ Zpos p~1) with (2 * den * 2 ^ Zpos p * 2 ^ Zpos p); [ exact H | ].
    replace (Zpos p~1) with (Zpos p + Zpos p + 1) by lia.
    rewrite !Z.pow_add_r by lia. ring.
  - apply IH in H; try lia. apply IH in H; try nia.
    replace (den * 2 ^ Zpos p~0) with (den * 2 ^ Zpos p * 2 ^ Zpos p); [ exact H | ].
    replace (Zpos p~0) with (Zpos p + Zpos p) by lia.
    rewrite !Z.pow_add_r by lia. ring.
  - apply shr_1_located in H; try assumption.
    rewrite Z.pow_1_r. replace (den * 2) with (2 * den) by ring. exact H.
Qed.

Lemma shr_nonpos mrs e n : n <= 0 -> shr mrs e n = (mrs, e).
Proof. destruct n; try reflexivity. lia. Qed.

Lemma shr_located num den mrs e n :
  0 <= num -> 0 < den ->
  located num den mrs ->
  exists mrs', shr mrs e n = (mrs', e + Z.max 0 n) /\
               located num (den * 2 ^ Z.max 0 n) mrs'.
Proof.
  intros Hnum Hden H. destruct n as [| p | p].
  - exists mrs. cbn. rewrite Z.add_0_r, Z.mul_1_r. auto.
  - exists (iter_pos shr_1 p mrs). rewrite Z.max_r by lia. split; [ reflexivity | ].
    apply iter_pos_shr_1_located; assumption.
  - exists mrs. rewrite Z.max_l by lia. cbn [shr]. rewrite Z.add_0_r.
    change (2 ^ 0) with 1. rewrite Z.mul_1_r. auto.
Qed.

(** Rounding the quotient to nearest, ties to even, is off by at most
    half a unit. *)
Lemma round_nearest_even_located num den mrs :
  0 < den -> located num den mrs ->
  let m' := round_nearest_even (shr_m mrs) (loc_of_shr_record mrs) in
  num / den <= m' <= num / den + 1 /\
  Z.abs (2 * (m' * den - num)) <= den.
Proof.
  intros Hden [Hm Hl] m'. subst m'. rewrite Hm, Hl.
  pose proof (Z.div_mod num den ltac:(lia)) as Hdm.
  pose proof (Z.mod_pos_bound num den Hden) as Hmod.
  set (t := num mod den) in *. set (q := num / den) in *.
  unfold loc_of, round_nearest_even.
  destruct (Z.eqb_spec t 0) as [Ht | Ht]; [ split; lia | ].
  destruct (Z.compare_spec (2 * t) den); [ destruct (Z.even q) | | ]; split; lia.
Qed.

(** *** [binary_round_aux] in the normal range *)

Lemma fexp_normal x : -1021 <= x -> fexp prec emax x = x - 53.
Proof. unfold fexp, emin, prec, emax. lia. Qed.

Lemma shr_fexp_located num den e :
  0 <= num -> 0 < den ->
  let m := num / den in
  let k := Z.max 0 (fexp prec emax (Zdigits2 m + e) - e) in
  exists mrs,
    shr_fexp prec emax m e (loc_of (num mod den) den) = (mrs, e + k) /\
    located num (den * 2 ^ k) mrs.
Proof.
  intros Hnum Hden m k. unfold shr_fexp.
  apply shr_located; try assumption. apply located_of_loc.
Qed.

(** The quotient [num / den] scaled by [2^e], rounded to binary64: the
    result is finite and within half a unit in the last place, where the
    last place is [2^(e+k)] and [k] counts the bits that do not fit in
    the 53-bit significand. *)
Theorem binary_round_aux_normal sx num den e :
  0 <= num -> 0 < den ->
  let m := num / den in
  let k := Z.max 0 (Zdigits2 m - 53) in
  0 < m ->
  -1021 <= Zdigits2 m + e ->
  e + k < 971 ->
  exists m' e',
    binary_round_aux prec emax sx m e (loc_of (num mod den) den)
      = S754_finite sx m' e' /\
    e + k <= e' <= e + k + 1 /\
    Z.abs (2 * (Zpos m' * 2 ^ (e' - e) * den - num)) <= den * 2 ^ k /\
    Zpos m' < 2 ^ 53 /\
    (53 <= Zdigits2 m -> 2 ^ 52 <= Zpos m').
Proof.
  intros Hnum Hden m k Hm Hlo Hhi.
  pose proof (Zdigits2_bounds m Hm) as [Hdlo Hdhi].
  pose proof (Zdigits2_pos m Hm) as Hdpos.
  set (d := Zdigits2 m) in *.
  destruct (shr_fexp_located num den e Hnum Hden) as (mrs1 & E1 & L1).
  fold m in E1, L1. fold d in E1, L1.
  rewrite (fexp_normal (d + e) Hlo) in E1, L1.
  replace (d + e - 53 - e) with (d - 53) in E1, L1 by ring.
  fold k in E1, L1.
  assert (Hk : 0 <= k) by (unfold k; lia).
  assert (HP : 0 < 2 ^ k) by (apply Z.pow_pos_nonneg; lia).
  pose proof (round_nearest_even_located num (den * 2 ^ k) mrs1 ltac:(nia) L1) as [Hr Herr].
  cbv zeta in Hr, Herr.
  set (mr := round_nearest_even (shr_m mrs1) (loc_of_shr_record mrs1)) in *.
  (* the truncated significand has min(d, 53) digits *)
  assert (Hm1 : num / (den * 2 ^ k) = m / 2 ^ k).
  { unfold m. rewrite Z.div_div by lia. reflexivity. }
  rewrite Hm1 in Hr.
  set (dk := d - k) in *.
  assert (Hdk : 1 <= dk <= 53) by (unfold dk, k; lia).
  assert (Hsplit : 2 ^ d = 2 ^ k * 2 ^ dk).
  { rewrite <- Z.pow_add_r by lia. f_equal. unfold dk. ring. }
  assert (Hsplit' : 2 ^ (d - 1) = 2 ^ k * 2 ^ (dk - 1)).
  { rewrite <- Z.pow_add_r by lia. f_equal. unfold dk. ring. }
  assert (Hm1hi : m / 2 ^ k < 2 ^ dk).
  { apply Z.div_lt_upper_bound; lia. }
  assert (Hm1lo : 2 ^ (dk - 1) <= m / 2 ^ k).
  { apply Z.div_le_lower_bound; lia. }
  assert (Hdk53 : 2 ^ dk <= 2 ^ 53) by (apply Z.pow_le_mono_r; lia).
  assert (Hpdk : 0 < 2 ^ (dk - 1)) by (apply Z.pow_pos_nonneg; lia).
  assert (Hdk2 : 2 ^ dk = 2 * 2 ^ (dk - 1)).
  { rewrite <- Z.pow_succ_r by lia. f_equal. lia. }
  unfold binary_round_aux. rewrite E1. fold mr.
  destruct (Z_lt_le_dec mr (2 ^ dk)) as [Hlt | Hge].
  - (* no carry out of the significand *)
    assert (Hdr : Zdigits2 mr = dk) by (apply Zdigits2_unique; lia).
    unfold shr_fexp. rewrite Hdr.
    replace (dk + (e + k)) with (d + e) by (unfold dk; ring).
    rewrite (fexp_normal (d + e) Hlo).
    rewrite shr_nonpos by (unfold k; lia).
    cbn [shr_record_of_loc shr_m].
    destruct mr as [| p | p]; try lia.
    exists p, (e + k).
    replace (e + k <=? emax - prec) with true
      by (symmetry; apply Z.leb_le; unfold emax, prec; lia).
    split; [ reflexivity | ].
    replace (e + k - e) with k by ring.
    split; [ lia | ].
    split; [ replace (Zpos p * 2 ^ k * den) with (Zpos p * (den * 2 ^ k)) by ring;
             exact Herr | ].
    split; [ lia | ].
    intros H53. replace dk with 53 in * by (unfold dk, k; lia).
    change (53 - 1) with 52 in *. lia.
  - (* the significand rounds up to a power of two *)
    assert (Hmr : mr = 2 ^ dk) by lia.
    assert (Hdr : Zdigits2 mr = dk + 1).
    { apply Zdigits2_unique; try lia.
      replace (dk + 1 - 1) with dk by ring.
      rewrite Z.pow_add_r, Z.pow_1_r by lia. lia. }
    unfold shr_fexp. rewrite Hdr.
    replace (dk + 1 + (e + k)) with (d + e + 1) by (unfold dk; ring).
    rewrite (fexp_normal (d + e + 1)) by lia.
    destruct (Z_lt_le_dec d 53) as [Hd | Hd].
    + rewrite shr_nonpos by (unfold k; lia).
      cbn [shr_record_of_loc shr_m].
      destruct mr as [| p | p]; try lia.
      exists p, (e + k).
      replace (e + k <=? emax - prec) with true
        by (symmetry; apply Z.leb_le; unfold emax, prec; lia).
      split; [ reflexivity | ].
      replace (e + k - e) with k by ring.
      assert (2 ^ dk < 2 ^ 53) by (apply Z.pow_lt_mono_r; unfold dk, k; lia).
      split; [ lia | ].
      split; [ replace (Zpos p * 2 ^ k * den) with (Zpos p * (den * 2 ^ k)) by ring;
               exact Herr | ].
      split; lia.
    + assert (Hk' : k = d - 53) by (unfold k; lia).
      assert (Hdk' : dk = 53) by (unfold dk; lia).
      replace (d + e + 1 - 53 - (e + k)) with 1 by lia.
      rewrite Hmr, Hdk'.
      cbn [shr shr_record_of_loc iter_pos].
      change (2 ^ 53) with 9007199254740992.
      cbn [shr_1 orb shr_m].
      exists 4503599627370496%positive, (e + k + 1).
      replace (e + k + 1 <=? emax - prec) with true
        by (symmetry; apply Z.leb_le; unfold emax, prec; lia).
      split; [ reflexivity | ].
      replace (e + k + 1 - e) with (k + 1) by ring.
      rewrite Z.pow_add_r, Z.pow_1_r by lia.
      rewrite Hmr, Hdk' in Herr.
      change (2 ^ 53) with 9007199254740992 in *.
      change (2 ^ 52) with 4503599627370496 in *.
      split; [ lia | ].
      split; [ | split; lia ].
      replace (4503599627370496 * (2 ^ k * 2) * den)
        with (9007199254740992 * (den * 2 ^ k)) by ring.
      exact Herr.
Qed.

(** *** Values as rationals *)

Lemma Qpow2_pos e : (0 < Qpower 2 e)%Q.
Proof. apply Qpower_0_lt. reflexivity. Qed.

Lemma Qpow2_nonneg_exp k : 0 <= k -> (Qpower 2 k == inject_Z (2 ^ k))%Q.
Proof. intros Hk. rewrite Zpower_Qpower by assumption. reflexivity. Qed.

Lemma Qpow2_add a b : (Qpower 2 (a + b) == Qpower 2 a * Qpower 2 b)%Q.
Proof. apply Qpower_plus. discriminate. Qed.

Lemma F2Q_shift m e k : 0 <= k -> (F2Q (m * 2 ^ k) (e - k) == F2Q m e)%Q.
Proof.
  intros Hk. unfold F2Q.
  replace e with ((e - k) + k) at 2 by ring.
  rewrite Qpow2_add, (Qpow2_nonneg_exp k Hk), inject_Z_mult. ring.
Qed.

Lemma F2Q_add a b e : (F2Q (a + b) e == F2Q a e + F2Q b e)%Q.
Proof. unfold F2Q. rewrite inject_Z_plus. ring. Qed.

(** One rounding, read on rationals: the double returned for the exact
    number [x = (num / den) * 2^e] lies within [x * 2^-53] of it. *)
Theorem binary_round_aux_relative sx num den e :
  0 <= num -> 0 < den ->
  let m := num / den in
  let k := Zdigits2 m - 53 in
  0 <= k ->
  -1021 <= Zdigits2 m + e ->
  e + k < 971 ->
  exists m' e',
    binary_round_aux prec emax sx m e (loc_of (num mod den) den)
      = S754_finite sx m' e' /\
    e + k <= e' <= e + k + 1 /\
    2 ^ 52 <= Zpos m' < 2 ^ 53 /\
    let x := (F2Q num e / inject_Z den)%Q in
    ((1 - eps) * x <= F2Q (Zpos m') e' <= (1 + eps) * x)%Q.
Proof.
  intros Hnum Hden m k Hk Hlo Hhi.
  assert (Hm : 0 < m).
  { destruct m as [| p | p] eqn:E; cbn in k; try lia.
    pose proof (Z.div_pos num den Hnum Hden). fold m in H. lia. }
  assert (Hk' : Z.max 0 (Zdigits2 m - 53) = k) by (unfold k; lia).
  destruct (binary_round_aux_normal sx num den e Hnum Hden Hm Hlo)
    as (m' & e' & E & He & Herr & Hm' & Hm'').
  { fold m. rewrite Hk'. exact Hhi. }
  fold m in E, He, Herr, Hm''. rewrite Hk' in He, Herr.
  exists m', e'. split; [ exact E | ]. split; [ exact He | ].
  split; [ split; [ apply Hm''; unfold k in Hk; lia | exact Hm' ] | ].
  cbv zeta.
  (* the integer facts *)
  pose proof (Zdigits2_bounds m Hm) as [Hdlo _].
  replace (Zdigits2 m - 1) with (52 + k) in Hdlo by (unfold k; ring).
  rewrite Z.pow_add_r in Hdlo by lia.
  change (2 ^ 52) with 4503599627370496 in Hdlo.
  assert (HP : 0 < 2 ^ k) by (apply Z.pow_pos_nonneg; lia).
  pose proof (Z.mul_div_le num den Hden) as Hfloor. fold m in Hfloor.
  set (a := Zpos m' * 2 ^ (e' - e)) in *.
  assert (Hz : - num <= (a * den - num) * 9007199254740992 <= num) by nia.
  (* move to rationals *)
  assert (Hq : (- inject_Z num <= (inject_Z (a * den) - inject_Z num) * (9007199254740992 # 1)
                <= inject_Z num)%Q).
  { change (9007199254740992 # 1)%Q with (inject_Z 9007199254740992).
    unfold Qminus.
    rewrite <- !inject_Z_opp, <- inject_Z_plus, <- inject_Z_mult.
    rewrite <- !Zle_Qle. lia. }
  assert (HD : (0 < inject_Z den)%Q).
  { change 0%Q with (inject_Z 0). rewrite <- Zlt_Qlt. exact Hden. }
  assert (Hv : (F2Q (Zpos m') e' == inject_Z (a * den) * (Qpower 2 e / inject_Z den))%Q).
  { rewrite <- (F2Q_shift (Zpos m') e' (e' - e)) by lia.
    fold a. replace (e' - (e' - e)) with e by ring.
    unfold F2Q. rewrite inject_Z_mult. field. apply Qnot_eq_sym, Qlt_not_eq, HD. }
  assert (Hx : (F2Q num e / inject_Z den == inject_Z num * (Qpower 2 e / inject_Z den))%Q).
  { unfold F2Q. field. apply Qnot_eq_sym, Qlt_not_eq, HD. }
  rewrite Hv, Hx.
  assert (Hc : (0 <= Qpower 2 e / inject_Z den)%Q).
  { apply Qlt_le_weak, Qlt_shift_div_l; [ exact HD | ].
    rewrite Qmult_0_l. apply Qpow2_pos. }
  set (c := (Qpower 2 e / inject_Z den)%Q) in *.
  rewrite !Qmult_assoc.
  unfold eps. split; apply Qmult_le_compat_r; try exact Hc; lra.
Qed.

(** *** Conversion from integers is exact below 2^53 *)

Lemma Zdigits2_ge m d : 0 < m -> 2 ^ (d - 1) <= m -> d <= Zdigits2 m.
Proof.
  intros Hm Hd. pose proof (Zdigits2_bounds m Hm) as [_ Hhi].
  pose proof (Zdigits2_pos m Hm).
  destruct (Z_lt_le_dec (d - 1) 0); [ lia | ].
  assert (d - 1 < Zdigits2 m); [ apply (Z.pow_lt_mono_r_iff 2); lia | lia ].
Qed.

Lemma Pos_iter_xO m d : Zpos (Pos.iter xO m d) = Zpos m * 2 ^ Zpos d.
Proof.
  induction d as [| d IH] using Pos.peano_ind.
  - cbn. lia.
  - rewrite Pos.iter_succ, Pos2Z.inj_succ, Z.pow_succ_r by lia.
    rewrite Pos2Z.inj_xO, IH. ring.
Qed.

Lemma shl_align_lt mx ex ex' :
  ex' < ex ->
  exists mz, shl_align mx ex ex' = (mz, ex') /\ Zpos mz = Zpos mx * 2 ^ (ex - ex').
Proof.
  intros H. unfold shl_align.
  destruct (ex' - ex) as [| d | d] eqn:E; try lia.
  exists (Pos.iter xO mx d). split; [ reflexivity | ].
  rewrite Pos_iter_xO. f_equal. f_equal. lia.
Qed.

Lemma shl_align_ge mx ex ex' : ex <= ex' -> shl_align mx ex ex' = (mx, ex).
Proof.
  intros H. unfold shl_align. destruct (ex' - ex) eqn:E; try reflexivity. lia.
Qed.

(** Both cases at once: the significand aligned to [min ex ex']. *)
Lemma shl_align_spec mx ex ex' :
  exists mz, shl_align mx ex ex' = (mz, Z.min ex ex') /\
             Zpos mz = Zpos mx * 2 ^ (ex - Z.min ex ex').
Proof.
  destruct (Z_lt_le_dec ex' ex) as [H | H].
  - destruct (shl_align_lt mx ex ex' H) as (mz & E & Hz).
    exists mz. rewrite Z.min_r by lia. auto.
  - exists mx. rewrite Z.min_l by lia. rewrite shl_align_ge by lia.
    split; [ reflexivity | ]. rewrite Z.sub_diag. cbn. lia.
Qed.

(** An integer already on 53 digits or fewer passes through the rounding
    step unchanged. *)
Lemma binary_round_aux_exact sx mz ez :
  2 ^ 52 <= Zpos mz < 2 ^ 53 ->
  -1074 <= ez < 971 ->
  binary_round_aux prec emax sx (Zpos mz) ez loc_Exact = S754_finite sx mz ez.
Proof.
  intros Hm He.
  assert (Hd : Zdigits2 (Zpos mz) = 53) by (apply Zdigits2_unique; [ exact Hm | lia ]).
  unfold binary_round_aux, shr_fexp. rewrite Hd.
  rewrite fexp_normal by lia.
  rewrite shr_nonpos by lia.
  cbn [shr_record_of_loc shr_m loc_of_shr_record round_nearest_even].
  rewrite Hd, fexp_normal by lia.
  rewrite shr_nonpos by lia.
  cbn [shr_record_of_loc shr_m].
  replace (ez <=? emax - prec) with true
    by (symmetry; apply Z.leb_le; unfold emax, prec; lia).
  reflexivity.
Qed.

Theorem of_Z_exact z :
  0 < z < 2 ^ 53 ->
  exists m e,
    of_Z z = S754_finite false m e /\
    2 ^ 52 <= Zpos m < 2 ^ 53 /\
    -52 <= e <= 0 /\
    (F2Q (Zpos m) e == inject_Z z)%Q.
Proof.
  intros [Hz0 Hz1]. destruct z as [| p | p]; try lia.
  pose proof (Zdigits2_bounds (Zpos p) Hz0) as [Hlo Hhi].
  pose proof (Zdigits2_le (Zpos p) 53 Hz0 Hz1 ltac:(lia)) as Hd.
  pose proof (Zdigits2_pos (Zpos p) Hz0) as Hd0.
  cbn [Zdigits2] in Hlo, Hhi, Hd, Hd0.
  set (d := Zpos (digits2_pos p)) in *.
  unfold of_Z, binary_normalize, binary_round. fold d.
  rewrite fexp_normal by lia.
  destruct (shl_align_spec p 0 (d + 0 - 53)) as (mz & E & Hmz).
  rewrite Z.min_r in E, Hmz by lia. rewrite E.
  replace (0 - (d + 0 - 53)) with (53 - d) in Hmz by ring.
  assert (H53 : 2 ^ 53 = 2 ^ d * 2 ^ (53 - d)).
  { rewrite <- Z.pow_add_r by lia. f_equal. ring. }
  assert (H52 : 2 ^ 52 = 2 ^ (d - 1) * 2 ^ (53 - d)).
  { rewrite <- Z.pow_add_r by lia. f_equal. ring. }
  assert (HP : 0 < 2 ^ (53 - d)) by (apply Z.pow_pos_nonneg; lia).
  assert (Hmz' : 2 ^ 52 <= Zpos mz < 2 ^ 53) by (rewrite Hmz; nia).
  rewrite binary_round_aux_exact by (try exact Hmz'; lia).
  exists mz, (d + 0 - 53).
  split; [ reflexivity | ]. split; [ exact Hmz' | ]. split; [ lia | ].
  rewrite Hmz. replace (d + 0 - 53) with (0 - (53 - d)) by ring.
  rewrite F2Q_shift by lia. unfold F2Q. cbn. ring.
Qed.

(** *** Division and addition of positive normal doubles *)

Lemma SFdiv_core_binary_normal m1 e1 m2 e2 :
  2 ^ 52 <= Zpos m1 < 2 ^ 53 ->
  2 ^ 52 <= Zpos m2 < 2 ^ 53 ->
  -1021 <= e1 - e2 ->
  SFdiv_core_binary prec emax (Zpos m1) e1 (Zpos m2) e2 =
  ((Zpos m1 * 2 ^ 53) / Zpos m2, e1 - e2 - 53,
   loc_of ((Zpos m1 * 2 ^ 53) mod Zpos m2) (Zpos m2)).
Proof.
  intros H1 H2 He.
  unfold SFdiv_core_binary.
  rewrite (Zdigits2_unique (Zpos m1) 53), (Zdigits2_unique (Zpos m2) 53)
    by (try assumption; lia).
  replace (53 + e1 - (53 + e2)) with (e1 - e2) by ring.
  rewrite fexp_normal by lia.
  rewrite Z.min_l by lia.
  replace (e1 - e2 - (e1 - e2 - 53)) with 53 by ring.
  rewrite Z.shiftl_mul_pow2 by lia.
  pose proof (Z.mod_pos_bound (Zpos m1 * 2 ^ 53) (Zpos m2) ltac:(lia)) as Hr.
  unfold Z.div, Z.modulo in *.
  destruct (Z.div_eucl (Zpos m1 * 2 ^ 53) (Zpos m2)) as [q r].
  rewrite new_location_loc_of by lia. reflexivity.
Qed.

Theorem div_normal m1 e1 m2 e2 :
  2 ^ 52 <= Zpos m1 < 2 ^ 53 ->
  2 ^ 52 <= Zpos m2 < 2 ^ 53 ->
  -1000 <= e1 - e2 <= 900 ->
  exists m e,
    div (S754_finite false m1 e1) (S754_finite false m2 e2) = S754_finite false m e /\
    2 ^ 52 <= Zpos m < 2 ^ 53 /\
    e1 - e2 - 53 <= e <= e1 - e2 - 51 /\
    let x := (F2Q (Zpos m1) e1 / F2Q (Zpos m2) e2)%Q in
    ((1 - eps) * x <= F2Q (Zpos m) e <= (1 + eps) * x)%Q.
Proof.
  intros H1 H2 He.
  unfold div, SFdiv.
  rewrite SFdiv_core_binary_normal by (try assumption; lia).
  cbn [xorb].
  change (2 ^ 52) with 4503599627370496 in *.
  change (2 ^ 53) with 9007199254740992 in *.
  set (num := Zpos m1 * 9007199254740992).
  set (den := Zpos m2).
  assert (Hqlo : 4503599627370496 <= num / den).
  { apply Z.div_le_lower_bound; unfold num, den; lia. }
  assert (Hqhi : num / den < 2 ^ 54).
  { apply Z.div_lt_upper_bound; unfold num, den;
      change (2 ^ 54) with 18014398509481984; lia. }
  assert (Hd53 : 53 <= Zdigits2 (num / den)).
  { apply Zdigits2_ge; [ lia | ]. change (2 ^ (53 - 1)) with 4503599627370496. lia. }
  assert (Hd54 : Zdigits2 (num / den) <= 54).
  { apply Zdigits2_le; lia. }
  destruct (binary_round_aux_relative false num den (e1 - e2 - 53))
    as (m & e & E & Hex & Hm & Hv);
    try solve [ cbv zeta; lia | unfold num, den; lia ].
  exists m, e. split; [ exact E | ].
  change (2 ^ 52) with 4503599627370496 in Hm.
  change (2 ^ 53) with 9007199254740992 in Hm.
  split; [ exact Hm | ]. split; [ lia | ].
  cbv zeta in Hv |- *.
  assert (Hx : (F2Q num (e1 - e2 - 53) / inject_Z den
                == F2Q (Zpos m1) e1 / F2Q den e2)%Q).
  { unfold num. change 9007199254740992 with (2 ^ 53).
    rewrite F2Q_shift by lia. unfold F2Q, den.
    replace (e1 - e2) with (e1 + - e2) by ring.
    rewrite Qpow2_add, Qpower_opp.
    pose proof (Qpow2_pos e2).
    field. split.
    - apply Qnot_eq_sym, Qlt_not_eq. assumption.
    - discriminate. }
  rewrite <- Hx. exact Hv.
Qed.

Theorem add_normal m1 e1 m2 e2 :
  2 ^ 52 <= Zpos m1 < 2 ^ 53 ->
  2 ^ 52 <= Zpos m2 < 2 ^ 53 ->
  -1000 <= e1 <= 900 ->
  -1000 <= e2 <= 900 ->
  exists m e,
    add (S754_finite false m1 e1) (S754_finite false m2 e2) = S754_finite false m e /\
    2 ^ 52 <= Zpos m < 2 ^ 53 /\
    let x := (F2Q (Zpos m1) e1 + F2Q (Zpos m2) e2)%Q in
    ((1 - eps) * x <= F2Q (Zpos m) e <= (1 + eps) * x)%Q.
Proof.
  intros H1 H2 He1 He2.
  unfold add, SFadd. cbn [cond_Zopp].
  set (ez := Z.min e1 e2).
  destruct (shl_align_spec m1 e1 ez) as (a & Ea & Ha).
  destruct (shl_align_spec m2 e2 ez) as (b & Eb & Hb).
  rewrite (Z.min_r e1 ez) in Ea, Ha by (unfold ez; lia).
  rewrite (Z.min_r e2 ez) in Eb, Hb by (unfold ez; lia).
  rewrite Ea, Eb. cbn [fst Z.add binary_normalize].
  change (2 ^ 52) with 4503599627370496 in *.
  change (2 ^ 53) with 9007199254740992 in *.
  set (E := Z.max e1 e2).
  assert (HPa : 0 < 2 ^ (e1 - ez)) by (apply Z.pow_pos_nonneg; unfold ez; lia).
  assert (HPb : 0 < 2 ^ (e2 - ez)) by (apply Z.pow_pos_nonneg; unfold ez; lia).
  assert (HPE : 2 ^ (E - ez) = 2 ^ (e1 - ez) \/ 2 ^ (E - ez) = 2 ^ (e2 - ez)).
  { unfold E. destruct (Z_lt_le_dec e1 e2);
      [ right; rewrite Z.max_r by lia | left; rewrite Z.max_l by lia ]; reflexivity. }
  assert (HPa' : 2 ^ (e1 - ez) <= 2 ^ (E - ez)) by (apply Z.pow_le_mono_r; unfold E, ez; lia).
  assert (HPb' : 2 ^ (e2 - ez) <= 2 ^ (E - ez)) by (apply Z.pow_le_mono_r; unfold E, ez; lia).
  assert (HM : Zpos (a + b) = Zpos a + Zpos b) by reflexivity.
  assert (HMlo : 4503599627370496 <= Zpos (a + b)) by nia.
  assert (HMhi : Zpos (a + b) < 2 ^ (54 + (E - ez))).
  { rewrite Z.pow_add_r by (unfold E, ez; lia).
    change (2 ^ 54) with 18014398509481984. nia. }
  assert (Hd53 : 53 <= Zdigits2 (Zpos (a + b))).
  { apply Zdigits2_ge; [ lia | ]. change (2 ^ (53 - 1)) with 4503599627370496. lia. }
  assert (Hd54 : Zdigits2 (Zpos (a + b)) <= 54 + (E - ez)).
  { apply Zdigits2_le; lia. }
  unfold binary_round.
  change (Zpos (digits2_pos (a + b))) with (Zdigits2 (Zpos (a + b))).
  rewrite fexp_normal by (unfold ez; lia).
  rewrite shl_align_ge by lia.
  destruct (binary_round_aux_relative false (Zpos (a + b)) 1 ez)
    as (m & e & Er & Hex & Hm & Hv);
    try solve [ cbv zeta; rewrite ?Z.div_1_r; lia ].
  rewrite Z.div_1_r, Z.mod_1_r in Er. change (loc_of 0 1) with loc_Exact in Er.
  exists m, e. split; [ exact Er | ].
  change (2 ^ 52) with 4503599627370496 in Hm.
  change (2 ^ 53) with 9007199254740992 in Hm.
  split; [ exact Hm | ].
  cbv zeta in Hv |- *.
  assert (Hx : (F2Q (Zpos (a + b)) ez / inject_Z 1
                == F2Q (Zpos m1) e1 + F2Q (Zpos m2) e2)%Q).
  { rewrite HM, F2Q_add, Ha, Hb.
    replace ez with (e1 - (e1 - ez)) at 2 by ring.
    replace ez with (e2 - (e2 - ez)) at 4 by ring.
    rewrite !F2Q_shift by (unfold ez; lia).
    change (inject_Z 1) with 1%Q. field. }
  rewrite <- Hx. exact Hv.
Qed.

(** *** The expression of line 35 *)

Lemma of_Z_million : of_Z 1000000 = S754_finite false 8589934592000000 (-33).
Proof. reflexivity. Qed.

Lemma F2Q_million : (F2Q 8589934592000000 (-33) == 1000000)%Q.
Proof. reflexivity. Qed.

(** [s + u / 1000000.0] on two [unsigned] operands is a finite
    non-negative double; it differs from the exact [s + u / 10^6] by the
    two roundings only, each of relative size 2^-53. *)
Theorem seconds_double_accurate s u :
  0 <= s < 2 ^ 32 -> 0 <= u < 2 ^ 32 ->
  exists v,
    value (seconds_double s u) = Some v /\
    nonneg (seconds_double s u) = true /\
    (Qabs (v - (inject_Z s + inject_Z u / 1000000))
     <= eps * (inject_Z s + 3 * (inject_Z u / 1000000)))%Q.
Proof.
  intros Hs Hu.
  change (2 ^ 32) with 4294967296 in *.
  assert (Hs53 : 0 < s -> 0 < s < 2 ^ 53)
    by (change (2 ^ 53) with 9007199254740992; lia).
  assert (Hu53 : 0 < u -> 0 < u < 2 ^ 53)
    by (change (2 ^ 53) with 9007199254740992; lia).
  assert (HsQ : (0 <= inject_Z s)%Q)
    by (change 0%Q with (inject_Z 0); rewrite <- Zle_Qle; lia).
  assert (HuQ : (0 <= inject_Z u / 1000000)%Q).
  { apply Qle_shift_div_l; [ reflexivity | ]. rewrite Qmult_0_l.
    change 0%Q with (inject_Z 0). rewrite <- Zle_Qle. lia. }
  unfold seconds_double. rewrite of_Z_million.
  destruct (Z.eq_dec u 0) as [-> | Hu0].
  - (* no microseconds: the quotient is +0 *)
    change (of_Z 0) with (S754_zero false). cbn [div SFdiv xorb].
    assert (Hz : (inject_Z 0 / 1000000 == 0)%Q) by reflexivity.
    destruct (Z.eq_dec s 0) as [-> | Hs0].
    + exists 0%Q. cbn. repeat split; try reflexivity. discriminate.
    + destruct (of_Z_exact s ltac:(lia)) as (ms & es & Es & Hms & Hes & Hvs).
      rewrite Es. cbn [add SFadd].
      exists (F2Q (Zpos ms) es). split; [ reflexivity | ]. split; [ reflexivity | ].
      rewrite Hvs, Hz. apply Qabs_Qle_condition. unfold eps. split; lra.
  - destruct (of_Z_exact u ltac:(lia)) as (mu & eu & Eu & Hmu & Heu & Hvu).
    rewrite Eu.
    destruct (div_normal mu eu 8589934592000000 (-33) Hmu)
      as (mq & eq & Eq' & Hmq & Heq & Hvq);
      [ change (2 ^ 52) with 4503599627370496;
        change (2 ^ 53) with 9007199254740992; lia | lia | ].
    rewrite Eq'. cbv zeta in Hvq.
    rewrite Hvu, F2Q_million in Hvq.
    set (xq := (inject_Z u / 1000000)%Q) in *.
    set (vq := F2Q (Zpos mq) eq) in *.
    destruct (Z.eq_dec s 0) as [-> | Hs0].
    + change (of_Z 0) with (S754_zero false). cbn [add SFadd].
      exists vq. split; [ reflexivity | ]. split; [ reflexivity | ].
      apply Qabs_Qle_condition. unfold eps in *.
      change (inject_Z 0) with 0%Q. split; lra.
    + destruct (of_Z_exact s ltac:(lia)) as (ms & es & Es & Hms & Hes & Hvs).
      rewrite Es.
      destruct (add_normal ms es mq eq Hms Hmq ltac:(lia) ltac:(lia))
        as (mr & er & Er & Hmr & Hvr).
      rewrite Er. cbv zeta in Hvr. fold vq in Hvr. rewrite Hvs in Hvr.
      exists (F2Q (Zpos mr) er). split; [ reflexivity | ]. split; [ reflexivity | ].
      apply Qabs_Qle_condition. unfold eps in *. split; lra.
Qed.

End Rounding.

(* ------------------------------------------------------------------ *)
(** ** Accuracy of the returned double *)

Lemma value_is_finite d v : B64.value d = Some v -> B64.is_finite d = true.
Proof. destruct d; cbn; congruence. Qed.

Lemma nonneg_not_negative d : B64.nonneg d = true -> B64.negative d = false.
Proof. destruct d as [s | s | | s m e]; cbn; try reflexivity; destruct s; auto. Qed.

Section Accuracy.

Import Rounding.

(** Seconds below 2^32 and microseconds below 10^6 give a double within
    half a microsecond of [s + u / 10^6]. *)
Lemma seconds_double_microsecond s u :
  0 <= s < 4294967296 -> 0 <= u < 1000000 ->
  B64.nonneg (seconds_double s u) = true /\
  microsecond_accurate (seconds_double s u) ((s * 1000000 + u) # 1000000).
Proof.
  intros Hs Hu.
  destruct (seconds_double_accurate s u) as (v & Hv & Hn & Hb);
    try (change (2 ^ 32) with 4294967296; lia).
  split; [ exact Hn | ].
  exists v. split; [ exact Hv | ].
  assert (Hx : ((s * 1000000 + u) # 1000000
                == inject_Z s + inject_Z u / 1000000)%Q).
  { rewrite Qmake_Qdiv, inject_Z_plus, inject_Z_mult.
    change (inject_Z (Zpos 1000000)) with 1000000%Q.
    change (inject_Z 1000000) with 1000000%Q. field. }
  rewrite Hx.
  assert (HsQ : (0 <= inject_Z s <= 4294967295)%Q).
  { change 0%Q with (inject_Z 0). change 4294967295%Q with (inject_Z 4294967295).
    rewrite <- !Zle_Qle. lia. }
  assert (HuQ : (0 <= inject_Z u / 1000000 < 1)%Q).
  { split.
    - apply Qle_shift_div_l; [ reflexivity | ]. rewrite Qmult_0_l.
      change 0%Q with (inject_Z 0). rewrite <- Zle_Qle. lia.
    - apply Qlt_shift_div_r; [ reflexivity | ]. rewrite Qmult_1_l.
      change 1000000%Q with (inject_Z 1000000). rewrite <- Zlt_Qlt. lia. }
  eapply Qle_lt_trans; [ exact Hb | ].
  unfold B64.eps. lra.
Qed.

(** Any two [unsigned] operands give a finite non-negative double. *)
Lemma timeval_double_nonneg tv :
  B64.nonneg (timeval_double tv) = true /\
  B64.is_finite (timeval_double tv) = true.
Proof.
  unfold timeval_double.
  destruct (seconds_double_accurate (to_unsigned (tv_sec tv)) (to_unsigned (tv_usec tv)))
    as (v & Hv & Hn & _);
    try (change (2 ^ 32) with 4294967296; apply to_unsigned_range).
  split; [ exact Hn | exact (value_is_finite _ _ Hv) ].
Qed.

(** [_calc_uptime] on normalised timestamps: seconds are the floor of
    the difference reduced modulo 2^32, microseconds its remainder. *)
Lemma calc_uptime_at_accurate tv bt :
  usec_ok tv -> usec_ok bt ->
  let diff := micros tv - micros bt in
  let s := to_unsigned (diff / 1000000) in
  let u := diff mod 1000000 in
  calc_uptime_at (Some tv) bt = seconds_double s u /\
  B64.nonneg (calc_uptime_at (Some tv) bt) = true /\
  microsecond_accurate (calc_uptime_at (Some tv) bt) ((s * 1000000 + u) # 1000000).
Proof.
  intros Htv Hbt diff s u.
  rewrite (calc_uptime_at_div_mod tv bt Htv Hbt). fold diff. fold s. fold u.
  split; [ reflexivity | ].
  apply seconds_double_microsecond.
  - apply to_unsigned_range.
  - apply Z.mod_pos_bound. lia.
Qed.

End Accuracy.

(* ------------------------------------------------------------------ *)
(** ** The entry points, unfolded *)

Lemma skipn_length_app {A} (l l' : list A) :
  List.skipn (List.length l) (l ++ l') = l'.
Proof. induction l as [| a l IH]; cbn; auto. Qed.

Section EntryPoints.

Variable s : os_state.

Lemma getutxid_frame id :
  wall_clock (after (getutxid id) s) = wall_clock s /\
  kern_boottime (after (getutxid id) s) = kern_boottime s /\
  utx_file (after (getutxid id) s) = utx_file s /\
  os_trace (after (getutxid id) s) = os_trace s ++ [CallGetutxid].
Proof.
  unfold after, getutxid. cbn [utx_file log_call].
  destruct (utx_file s) as [db |] eqn:E; [ | cbn; auto ].
  destruct (scan _ _ _) as [[r pos'] |]; cbn; auto.
Qed.

(** [_uptime_posix] in one step: the lookup decides the result; the
    database is closed before [gettimeofday] is reached. *)
Lemma uptime_posix_unfold abi :
  let s1 := set_handle None (log_call CallEndutxent (after (getutxid boot_id) s)) in
  _uptime_posix abi s =
  match run (getutxid boot_id) s with
  | None => (Py_None, s1)
  | Some r => (PyFloat (calc_uptime_at (wall_clock s) (memcpy_ut_tv abi r)),
               log_call CallGettimeofday s1)
  end.
Proof.
  destruct (getutxid_frame boot_id) as (Hw & _).
  unfold _uptime_posix, bind, run, after in *.
  destruct (getutxid boot_id s) as [res s'] eqn:E. cbn [fst snd] in *.
  destruct res as [r |]; cbn; [ | reflexivity ].
  rewrite Hw. reflexivity.
Qed.

(** [_uptime_osx] in one step: a value of at most 16 bytes overwrites
    the start of [bt], whose other bytes stay as they were. *)
Lemma uptime_osx_unfold bt0 :
  let s1 := log_call CallSysctlbyname s in
  _uptime_osx bt0 s =
  match kern_boottime s with
  | None => (Py_None, s1)
  | Some v =>
      if sizeof_timeval <? Z.of_nat (List.length v) then (Py_None, s1)
      else (PyFloat (calc_uptime_at (wall_clock s)
                       (Mem.timeval_of_bytes_darwin (Mem.memcpy bt0 v (List.length v)))),
            log_call CallGettimeofday s1)
  end.
Proof.
  unfold _uptime_osx.
  unfold bind, sysctlbyname. cbn [String.eqb Ascii.eqb Bool.eqb negb kern_boottime log_call].
  destruct (kern_boottime s) as [v |]; [ | reflexivity ].
  destruct (sizeof_timeval <? Z.of_nat (List.length v)); reflexivity.
Qed.

(** The calls of [_uptime_posix]: [endutxent] comes right after
    [getutxid], and [gettimeofday] only when a record was found. *)
Lemma uptime_posix_calls abi :
  calls_made (_uptime_posix abi) s =
  match run (getutxid boot_id) s with
  | None => [CallGetutxid; CallEndutxent]
  | Some _ => [CallGetutxid; CallEndutxent; CallGettimeofday]
  end.
Proof.
  pose proof (uptime_posix_unfold abi) as Hu. cbv zeta in Hu.
  destruct (getutxid_frame boot_id) as (_ & _ & _ & Ht).
  unfold calls_made, after at 1. rewrite Hu.
  destruct (run (getutxid boot_id) s) as [r |]; cbn [snd os_trace set_handle log_call];
    rewrite Ht, <- !app_assoc; apply skipn_length_app.
Qed.

Lemma calc_uptime_unfold bt :
  _calc_uptime bt s = (calc_uptime_at (wall_clock s) bt, log_call CallGettimeofday s).
Proof. reflexivity. Qed.

End EntryPoints.

(* ------------------------------------------------------------------ *)
(** ** Outcomes of the entry points *)

Lemma minus_one_value : B64.has_value (B64.of_Z (-1)) (-1).
Proof. vm_compute. reflexivity. Qed.

Lemma calc_uptime_at_outcome s bt :
  outcome s (PyFloat (calc_uptime_at (wall_clock s) bt)).
Proof.
  unfold outcome. destruct (wall_clock s) as [tv |]; cbn [calc_uptime_at].
  - right. right. eexists. split; [ reflexivity | ]. apply timeval_double_nonneg.
  - right. left. auto.
Qed.

(** C1, as stated, fails: with the boot record present and [gettimeofday]
    failing, [_uptime_posix] hands the host the number -1.0, which is
    neither the absence value nor non-negative. *)
Lemma uptime_posix_negative_on_clock_failure :
  run (_uptime_posix UT_TV_TIMEVAL) Examples.st_clock_fails = PyFloat (B64.of_Z (-1)) /\
  B64.has_value (B64.of_Z (-1)) (-1) /\
  ~ absent_or_nonneg (run (_uptime_posix UT_TV_TIMEVAL) Examples.st_clock_fails).
Proof.
  split; [ reflexivity | ]. split; [ exact minus_one_value | ].
  vm_compute. discriminate.
Qed.

(** C1, amended: every call of either entry point returns the absence
    value, or -1.0 when [gettimeofday] failed, or a finite non-negative
    double. *)
Theorem uptime_outcomes (s : os_state) :
  (forall abi, outcome s (run (_uptime_posix abi) s)) /\
  (forall bt0, outcome s (run (_uptime_osx bt0) s)).
Proof.
  split.
  - intros abi. unfold run. rewrite uptime_posix_unfold.
    destruct (fst (getutxid boot_id s)) as [r |] eqn:E; unfold run; rewrite E; cbn [fst].
    + apply calc_uptime_at_outcome.
    + left. reflexivity.
  - intros bt0. unfold run. rewrite uptime_osx_unfold.
    destruct (kern_boottime s) as [v |]; [ | left; reflexivity ].
    destruct (sizeof_timeval <? Z.of_nat (List.length v)); cbn [fst].
    + left. reflexivity.
    + apply calc_uptime_at_outcome.
Qed.

(* ------------------------------------------------------------------ *)
(** ** The elapsed time *)

(** C2, as stated, fails: from the epoch to 2^32 seconds later the true
    difference is 4294967296 s, and [_calc_uptime] returns +0.0. *)
Lemma elapsed_wraps_after_2_32_seconds :
  timeval_ok Examples.epoch /\ timeval_ok Examples.after_2_32 /\
  micros Examples.epoch <= micros Examples.after_2_32 /\
  calc_uptime_at (Some Examples.after_2_32) Examples.epoch = S754_zero false /\
  ~ microsecond_accurate (calc_uptime_at (Some Examples.after_2_32) Examples.epoch)
      (elapsed_seconds Examples.after_2_32 Examples.epoch).
Proof.
  split; [ repeat split; cbn; lia | ].
  split; [ repeat split; cbn; lia | ].
  split; [ cbn; lia | ].
  split; [ reflexivity | ].
  intros (v & Hv & Hb).
  change (calc_uptime_at (Some Examples.after_2_32) Examples.epoch)
    with (S754_zero false) in Hv.
  cbn in Hv. injection Hv as <-. vm_compute in Hb. discriminate.
Qed.

(** C2, amended: for timestamps with normalised microseconds, [B <= N]
    and less than 2^32 seconds apart, [_calc_uptime] returns the double
    [s + u / 1000000.0] where [s] and [u] are the whole seconds and the
    microseconds of [N - B]; that double is less than half a microsecond
    away from [N - B]. *)
Theorem calc_uptime_elapsed (B N : timeval) :
  timeval_ok B -> timeval_ok N ->
  micros B <= micros N ->
  micros N - micros B < 4294967296 * 1000000 ->
  calc_uptime_at (Some N) B
    = seconds_double ((micros N - micros B) / 1000000)
                     ((micros N - micros B) mod 1000000) /\
  B64.nonneg (calc_uptime_at (Some N) B) = true /\
  microsecond_accurate (calc_uptime_at (Some N) B) (elapsed_seconds N B).
Proof.
  intros HB HN Hle Hlt.
  destruct (calc_uptime_at_accurate N B (proj2 HN) (proj2 HB)) as (E & Hn & Ha).
  cbv zeta in E, Ha.
  set (diff := micros N - micros B) in *.
  assert (Hs : 0 <= diff / 1000000 < 4294967296).
  { split; [ apply Z.div_pos; lia | apply Z.div_lt_upper_bound; lia ]. }
  rewrite (to_unsigned_small _ Hs) in E, Ha.
  split; [ exact E | ]. split; [ exact Hn | ].
  unfold elapsed_seconds. fold diff.
  replace (diff / 1000000 * 1000000 + diff mod 1000000) with diff in Ha
    by (pose proof (Z.div_mod diff 1000000); lia).
  exact Ha.
Qed.

(** The hypotheses hold five seconds after a boot at 1000.5 s. *)
Lemma calc_uptime_elapsed_witness :
  timeval_ok (mk_timeval 1000 500000) /\ timeval_ok (mk_timeval 1005 250000) /\
  micros (mk_timeval 1000 500000) <= micros (mk_timeval 1005 250000) /\
  micros (mk_timeval 1005 250000) - micros (mk_timeval 1000 500000)
    < 4294967296 * 1000000 /\
  microsecond_accurate
    (calc_uptime_at (Some (mk_timeval 1005 250000)) (mk_timeval 1000 500000))
    (elapsed_seconds (mk_timeval 1005 250000) (mk_timeval 1000 500000)).
Proof.
  assert (H1 : timeval_ok (mk_timeval 1000 500000)) by (repeat split; cbn; lia).
  assert (H2 : timeval_ok (mk_timeval 1005 250000)) by (repeat split; cbn; lia).
  assert (H3 : micros (mk_timeval 1000 500000) <= micros (mk_timeval 1005 250000))
    by (cbn; lia).
  assert (H4 : micros (mk_timeval 1005 250000) - micros (mk_timeval 1000 500000)
               < 4294967296 * 1000000) by (cbn; lia).
  repeat (split; [ assumption | ]).
  exact (proj2 (proj2 (calc_uptime_elapsed _ _ H1 H2 H3 H4))).
Defined.

(** C3, as stated, fails: on the borrow path, from 0.5 s to
    4294967301.25 s the true difference is 4294967300.75 s, and
    [_calc_uptime] returns 4.75. *)
Lemma borrow_result_wraps_after_2_32_seconds :
  timeval_ok Examples.half_past_epoch /\ timeval_ok Examples.quarter_past_2_32 /\
  micros Examples.half_past_epoch <= micros Examples.quarter_past_2_32 /\
  tv_usec Examples.quarter_past_2_32 < tv_usec Examples.half_past_epoch /\
  B64.has_value
    (calc_uptime_at (Some Examples.quarter_past_2_32) Examples.half_past_epoch) (19 # 4) /\
  ~ microsecond_accurate
      (calc_uptime_at (Some Examples.quarter_past_2_32) Examples.half_past_epoch)
      (elapsed_seconds Examples.quarter_past_2_32 Examples.half_past_epoch).
Proof.
  split; [ repeat split; cbn; lia | ].
  split; [ repeat split; cbn; lia | ].
  split; [ cbn; lia | ]. split; [ cbn; lia | ].
  split; [ vm_compute; reflexivity | ].
  intros (v & Hv & Hb).
  vm_compute in Hv. injection Hv as <-. vm_compute in Hb. discriminate.
Qed.

(** C3, amended: when [N.usec < B.usec] the subtraction leaves
    [N.sec - 1 - B.sec] seconds and [1000000 - B.usec + N.usec]
    microseconds, which together are exactly [N - B]; and when [N - B] is
    below 2^32 seconds the double returned is less than half a microsecond
    away from [N - B]. *)
Theorem calc_uptime_borrow (B N : timeval) :
  timeval_ok B -> timeval_ok N ->
  micros B <= micros N ->
  tv_usec N < tv_usec B ->
  micros N - micros B < 4294967296 * 1000000 ->
  timeval_sub N B
    = {| tv_sec := tv_sec N - 1 - tv_sec B;
         tv_usec := 1000000 - tv_usec B + tv_usec N |} /\
  micros (timeval_sub N B) = micros N - micros B /\
  microsecond_accurate (calc_uptime_at (Some N) B) (elapsed_seconds N B).
Proof.
  intros HB HN Hle Hborrow Hlt.
  assert (Hfit : in_long ((micros N - micros B) / 1000000)).
  { unfold in_long. change (2 ^ 63) with 9223372036854775808.
    split; [ transitivity 0; [ lia | apply Z.div_pos; lia ]
           | apply Z.div_lt_upper_bound; lia ]. }
  split; [ | split ].
  - rewrite (timeval_sub_div_mod N B (proj2 HN) (proj2 HB) Hfit).
    destruct HB as [_ [? ?]], HN as [_ [? ?]].
    unfold micros in *. f_equal.
    + symmetry. apply (Z.div_unique_pos _ _ _ (1000000 - tv_usec B + tv_usec N)); lia.
    + symmetry. apply (Z.mod_unique_pos _ _ (tv_sec N - 1 - tv_sec B)); lia.
  - apply timeval_sub_micros; [ exact (proj2 HN) | exact (proj2 HB) | exact Hfit ].
  - destruct (calc_uptime_at_accurate N B (proj2 HN) (proj2 HB)) as (_ & _ & Ha).
    cbv zeta in Ha.
    set (diff := micros N - micros B) in *.
    assert (Hs : 0 <= diff / 1000000 < 4294967296).
    { split; [ apply Z.div_pos; lia | apply Z.div_lt_upper_bound; lia ]. }
    rewrite (to_unsigned_small _ Hs) in Ha.
    unfold elapsed_seconds. fold diff.
    replace (diff / 1000000 * 1000000 + diff mod 1000000) with diff in Ha
      by (pose proof (Z.div_mod diff 1000000); lia).
    exact Ha.
Qed.

(** The borrow path on the same two timestamps. *)
Lemma calc_uptime_borrow_witness :
  timeval_ok (mk_timeval 1000 500000) /\ timeval_ok (mk_timeval 1005 250000) /\
  micros (mk_timeval 1000 500000) <= micros (mk_timeval 1005 250000) /\
  tv_usec (mk_timeval 1005 250000) < tv_usec (mk_timeval 1000 500000) /\
  micros (mk_timeval 1005 250000) - micros (mk_timeval 1000 500000)
    < 4294967296 * 1000000 /\
  timeval_sub (mk_timeval 1005 250000) (mk_timeval 1000 500000) = mk_timeval 4 750000 /\
  microsecond_accurate
    (calc_uptime_at (Some (mk_timeval 1005 250000)) (mk_timeval 1000 500000))
    (elapsed_seconds (mk_timeval 1005 250000) (mk_timeval 1000 500000)).
Proof.
  assert (H1 : timeval_ok (mk_timeval 1000 500000)) by (repeat split; cbn; lia).
  assert (H2 : timeval_ok (mk_timeval 1005 250000)) by (repeat split; cbn; lia).
  assert (H3 : micros (mk_timeval 1000 500000) <= micros (mk_timeval 1005 250000))
    by (cbn; lia).
  assert (H4 : tv_usec (mk_timeval 1005 250000) < tv_usec (mk_timeval 1000 500000))
    by (cbn; lia).
  assert (H5 : micros (mk_timeval 1005 250000) - micros (mk_timeval 1000 500000)
               < 4294967296 * 1000000) by (cbn; lia).
  repeat (split; [ assumption | ]).
  destruct (calc_uptime_borrow _ _ H1 H2 H3 H4 H5) as (E & _ & Ha).
  split; [ exact E | exact Ha ].
Defined.

(** C4: the casts to [unsigned] reduce both deltas modulo 2^32 before
    they are combined.  When the boot time lies after the current time
    the second delta is negative, and the result is the double built from
    that delta modulo 2^32 and the microsecond delta: finite, not negative,
    and less than half a microsecond away from the wrapped value. *)
Theorem calc_uptime_boot_in_future (B N : timeval) :
  timeval_ok B -> timeval_ok N ->
  micros N < micros B ->
  let delta := (micros N - micros B) / 1000000 in
  let usec := (micros N - micros B) mod 1000000 in
  let wrapped := delta mod 2 ^ 32 in
  delta < 0 /\
  timeval_sub N B = {| tv_sec := to_long delta; tv_usec := usec |} /\
  (in_long delta -> tv_sec (timeval_sub N B) = delta) /\
  timeval_double (timeval_sub N B)
    = seconds_double (tv_sec (timeval_sub N B) mod 2 ^ 32)
                     (tv_usec (timeval_sub N B) mod 2 ^ 32) /\
  calc_uptime_at (Some N) B = seconds_double wrapped usec /\
  0 <= wrapped < 2 ^ 32 /\
  (- 2 ^ 32 <= delta -> wrapped = delta + 2 ^ 32) /\
  B64.nonneg (calc_uptime_at (Some N) B) = true /\
  B64.negative (calc_uptime_at (Some N) B) = false /\
  microsecond_accurate (calc_uptime_at (Some N) B)
    ((wrapped * 1000000 + usec) # 1000000).
Proof.
  intros [_ HB] [_ HN] Hlt delta usec wrapped.
  destruct (calc_uptime_at_accurate N B HN HB) as (E & Hn & Ha).
  cbv zeta in E, Ha. unfold to_unsigned, unsigned_bits in E, Ha.
  fold delta in E, Ha. fold usec in E, Ha. fold wrapped in E, Ha.
  pose proof (timeval_sub_wrap N B HN HB) as Hsub. fold delta usec in Hsub.
  assert (Hneg : delta < 0) by (apply Z.div_lt_upper_bound; lia).
  assert (Hw : 0 <= wrapped < 2 ^ 32) by (apply Z.mod_pos_bound; reflexivity).
  split; [ exact Hneg | ]. split; [ exact Hsub | ].
  split; [ intros Hfit; rewrite Hsub; apply (to_long_small _ Hfit) | ].
  split; [ reflexivity | ]. split; [ exact E | ]. split; [ exact Hw | ].
  split.
  { intros Hge. symmetry. apply (Z.mod_unique_pos _ _ (-1)); lia. }
  split; [ exact Hn | ].
  split; [ apply nonneg_not_negative; exact Hn | exact Ha ].
Qed.

(** A boot one second ahead of the clock reads as 2^32 - 1 seconds. *)
Lemma calc_uptime_boot_in_future_witness :
  timeval_ok (mk_timeval 1001 0) /\ timeval_ok (mk_timeval 1000 0) /\
  micros (mk_timeval 1000 0) < micros (mk_timeval 1001 0) /\
  calc_uptime_at (Some (mk_timeval 1000 0)) (mk_timeval 1001 0)
    = seconds_double 4294967295 0 /\
  B64.negative (calc_uptime_at (Some (mk_timeval 1000 0)) (mk_timeval 1001 0)) = false.
Proof.
  assert (H1 : timeval_ok (mk_timeval 1001 0)) by (repeat split; cbn; lia).
  assert (H2 : timeval_ok (mk_timeval 1000 0)) by (repeat split; cbn; lia).
  assert (H3 : micros (mk_timeval 1000 0) < micros (mk_timeval 1001 0)) by (cbn; lia).
  repeat (split; [ assumption | ]).
  destruct (calc_uptime_boot_in_future _ _ H1 H2 H3)
    as (_ & _ & _ & _ & E & _ & _ & _ & Hneg & _).
  split; [ exact E | exact Hneg ].
Defined.

(* ------------------------------------------------------------------ *)
(** ** _uptime_posix *)

(** C5: when [getutxid] finds no boot record, [_uptime_posix] returns
    [Py_None], which is no number at all, and the only calls it makes are
    [getutxid] and [endutxent]: [_calc_uptime], which starts by calling
    [gettimeofday], is not reached. *)
Theorem uptime_posix_no_record (abi : utmpx_abi) (s : os_state) :
  run (getutxid boot_id) s = None ->
  run (_uptime_posix abi) s = Py_None /\
  (forall d, run (_uptime_posix abi) s <> PyFloat d) /\
  calls_made (_uptime_posix abi) s = [CallGetutxid; CallEndutxent] /\
  ~ In CallGettimeofday (calls_made (_uptime_posix abi) s).
Proof.
  intros Hnone.
  pose proof (uptime_posix_unfold s abi) as Hu. cbv zeta in Hu. rewrite Hnone in Hu.
  pose proof (uptime_posix_calls s abi) as Hc. rewrite Hnone in Hc.
  unfold run. rewrite Hu, Hc. cbn [fst].
  split; [ reflexivity | ]. split; [ discriminate | ].
  split; [ reflexivity | ].
  cbn. intros [H | [H | []]]; discriminate.
Qed.

(** A database with a login record only. *)
Lemma uptime_posix_no_record_witness :
  run (getutxid boot_id) Examples.st_no_boot = None /\
  run (_uptime_posix UT_TV_INT32_PAIR) Examples.st_no_boot = Py_None /\
  calls_made (_uptime_posix UT_TV_INT32_PAIR) Examples.st_no_boot
  = [CallGetutxid; CallEndutxent].
Proof.
  assert (H : run (getutxid boot_id) Examples.st_no_boot = None) by reflexivity.
  split; [ exact H | ].
  destruct (uptime_posix_no_record UT_TV_INT32_PAIR Examples.st_no_boot H)
    as (Hr & _ & Hc & _).
  split; [ exact Hr | exact Hc ].
Defined.

(** C7: after any call of [_uptime_posix], whether it found the boot
    record or not, the accounting database is closed: on both paths
    [endutxent] is the call that follows [getutxid], and it comes before
    [gettimeofday]. *)
Theorem uptime_posix_closes_database (abi : utmpx_abi) (s : os_state) :
  utx_handle (after (_uptime_posix abi) s) = None /\
  (run (_uptime_posix abi) s = Py_None /\
   calls_made (_uptime_posix abi) s = [CallGetutxid; CallEndutxent]
   \/
   (exists d, run (_uptime_posix abi) s = PyFloat d) /\
   calls_made (_uptime_posix abi) s = [CallGetutxid; CallEndutxent; CallGettimeofday]).
Proof.
  pose proof (uptime_posix_unfold s abi) as Hu. cbv zeta in Hu.
  pose proof (uptime_posix_calls s abi) as Hc.
  unfold after at 1. unfold run at 1 2. rewrite Hu, Hc.
  destruct (run (getutxid boot_id) s) as [r |]; cbn [fst snd].
  - split; [ reflexivity | ]. right. split; [ eexists; reflexivity | reflexivity ].
  - split; [ reflexivity | ]. left. split; reflexivity.
Qed.

(* ------------------------------------------------------------------ *)
(** ** _uptime_osx *)



(* ------------------------------------------------------------------ *)
(** ** The microsecond field *)

(** C8: when both microsecond fields are in [0, 1000000), so is the
    microsecond field after the subtraction, whatever the seconds are. *)
Theorem timeval_sub_usec_normalised (B N : timeval) :
  0 <= tv_usec B < 1000000 ->
  0 <= tv_usec N < 1000000 ->
  0 <= tv_usec (timeval_sub N B) < 1000000.
Proof.
  intros HB HN. unfold timeval_sub.
  destruct (Z.ltb_spec (tv_usec N) (tv_usec B)); cbn [tv_usec].
  - rewrite (to_long_small (1000000 - tv_usec B))
    by fits_long.
    rewrite to_long_small
    by fits_long.
    lia.
  - rewrite to_long_small
    by fits_long.
    lia.
Qed.

(** The borrow branch: 1000000 - 500000 + 250000. *)
Lemma timeval_sub_usec_normalised_witness :
  0 <= tv_usec (mk_timeval 1000 500000) < 1000000 /\
  0 <= tv_usec (mk_timeval 1005 250000) < 1000000 /\
  0 <= tv_usec (timeval_sub (mk_timeval 1005 250000) (mk_timeval 1000 500000)) < 1000000.
Proof.
  assert (H1 : 0 <= tv_usec (mk_timeval 1000 500000) < 1000000) by (cbn; lia).
  assert (H2 : 0 <= tv_usec (mk_timeval 1005 250000) < 1000000) by (cbn; lia).
  split; [ exact H1 | ]. split; [ exact H2 | ].
  exact (timeval_sub_usec_normalised _ _ H1 H2).
Defined.

(* ------------------------------------------------------------------ *)
(** ** The two examples of the spec *)

(** C9: with B = (1000, 500000) and N = (1005, 250000) the test of line
    27 holds, the subtraction leaves (4, 750000) and the double returned
    is 4.75; with B = N = (1000, 0) the double returned is +0.0. *)
Theorem calc_uptime_examples :
  (tv_usec (mk_timeval 1005 250000) <? tv_usec (mk_timeval 1000 500000)) = true /\
  timeval_sub (mk_timeval 1005 250000) (mk_timeval 1000 500000) = mk_timeval 4 750000 /\
  calc_uptime_at (Some (mk_timeval 1005 250000)) (mk_timeval 1000 500000)
    = S754_finite false 5348024557502464 (-50) /\
  B64.has_value
    (calc_uptime_at (Some (mk_timeval 1005 250000)) (mk_timeval 1000 500000)) (475 # 100) /\
  calc_uptime_at (Some (mk_timeval 1000 0)) (mk_timeval 1000 0) = S754_zero false /\
  B64.has_value (calc_uptime_at (Some (mk_timeval 1000 0)) (mk_timeval 1000 0)) 0.
Proof.
  split; [ reflexivity | ]. split; [ reflexivity | ]. split; [ reflexivity | ].
  split; [ vm_compute; reflexivity | ]. split; [ reflexivity | ].
  vm_compute. reflexivity.
Qed.

(* ------------------------------------------------------------------ *)
(** ** Failure of gettimeofday *)

(** C10: when [gettimeofday] fails, [_calc_uptime] returns -1, and each
    entry point that had obtained a boot timestamp returns the float -1.0,
    not [Py_None]. *)
Theorem clock_failure_returns_minus_one (s : os_state) :
  wall_clock s = None ->
  (forall bt, run (_calc_uptime bt) s = B64.of_Z (-1)) /\
  B64.has_value (B64.of_Z (-1)) (-1) /\
  (forall abi r, run (getutxid boot_id) s = Some r ->
                 run (_uptime_posix abi) s = PyFloat (B64.of_Z (-1))) /\
  (forall bt0 v, kern_boottime s = Some v ->
                 Z.of_nat (List.length v) <= sizeof_timeval ->
                 run (_uptime_osx bt0) s = PyFloat (B64.of_Z (-1))) /\
  PyFloat (B64.of_Z (-1)) <> Py_None.
Proof.
  intros Hclock.
  split.
  { intros bt. unfold run. rewrite calc_uptime_unfold, Hclock. reflexivity. }
  split; [ exact minus_one_value | ].
  split.
  { intros abi r Hr. pose proof (uptime_posix_unfold s abi) as Hu. cbv zeta in Hu.
    rewrite Hr, Hclock in Hu. unfold run at 1. rewrite Hu. reflexivity. }
  split; [ | discriminate ].
  intros bt0 v Hv Hsz. unfold run. rewrite uptime_osx_unfold, Hv, Hclock.
  destruct (Z.ltb_spec sizeof_timeval (Z.of_nat (List.length v))); [ lia | reflexivity ].
Qed.

(** Boot record and kernel parameter present, clock failing. *)
Lemma clock_failure_returns_minus_one_witness :
  wall_clock Examples.st_clock_fails = None /\
  run (_uptime_posix UT_TV_TIMEVAL) Examples.st_clock_fails = PyFloat (B64.of_Z (-1)) /\
  run (_uptime_posix UT_TV_INT32_PAIR) Examples.st_clock_fails = PyFloat (B64.of_Z (-1)) /\
  run (_uptime_osx Examples.bt_zeros) Examples.st_clock_fails = PyFloat (B64.of_Z (-1)).
Proof.
  assert (H : wall_clock Examples.st_clock_fails = None) by reflexivity.
  split; [ exact H | ].
  destruct (clock_failure_returns_minus_one Examples.st_clock_fails H)
    as (_ & _ & Hposix & Hosx & _).
  split; [ | split ].
  - apply (Hposix UT_TV_TIMEVAL Examples.boot_record). reflexivity.
  - apply (Hposix UT_TV_INT32_PAIR Examples.boot_record). reflexivity.
  - apply (Hosx Examples.bt_zeros (Mem.bytes_of_timeval_darwin (mk_timeval 1000 500000))).
    + reflexivity.
    + unfold sizeof_timeval. cbn. lia.
Defined.

(* ------------------------------------------------------------------ *)
(** ** More on the elapsed-time arithmetic *)

Section ElapsedHelpers.

Import Rounding.

(** Below 2^32 seconds the returned double is within half a microsecond
    of the elapsed time. *)
Lemma calc_uptime_at_elapsed_accurate tv bt :
  usec_ok tv -> usec_ok bt ->
  0 <= micros tv - micros bt < 4294967296 * 1000000 ->
  microsecond_accurate (calc_uptime_at (Some tv) bt) (elapsed_seconds tv bt).
Proof.
  intros Htv Hbt Hd.
  destruct (calc_uptime_at_accurate tv bt Htv Hbt) as (_ & _ & Ha).
  cbv zeta in Ha.
  set (diff := micros tv - micros bt) in *.
  assert (Hs : 0 <= diff / 1000000 < 4294967296).
  { split; [ apply Z.div_pos; lia | apply Z.div_lt_upper_bound; lia ]. }
  rewrite (to_unsigned_small _ Hs) in Ha.
  unfold elapsed_seconds. fold diff.
  replace (diff / 1000000 * 1000000 + diff mod 1000000) with diff in Ha
    by (pose proof (Z.div_mod diff 1000000); lia).
  exact Ha.
Qed.

(** Whole seconds are converted without rounding. *)
Lemma seconds_double_whole s :
  0 <= s < 4294967296 -> B64.has_value (seconds_double s 0) (inject_Z s).
Proof.
  intros Hs. unfold seconds_double. rewrite of_Z_million.
  change (B64.of_Z 0) with (S754_zero false).
  cbn [B64.div SFdiv xorb].
  destruct (Z.eq_dec s 0) as [-> | Hs0].
  - vm_compute. reflexivity.
  - destruct (of_Z_exact s) as (m & e & E & _ & _ & Hv);
      [ change (2 ^ 53) with 9007199254740992; lia | ].
    rewrite E. cbn [B64.add SFadd]. unfold B64.has_value. cbn [B64.value cond_Zopp].
    exact Hv.
Qed.

(** Every double line 35 can produce is finite and lies between 0 and
    [uptime_max]. *)
Lemma timeval_double_range tv :
  exists v, B64.value (timeval_double tv) = Some v /\ (0 <= v <= uptime_max)%Q.
Proof.
  unfold timeval_double.
  pose proof (to_unsigned_range (tv_sec tv)) as Hs.
  pose proof (to_unsigned_range (tv_usec tv)) as Hu.
  set (s := to_unsigned (tv_sec tv)) in *. set (u := to_unsigned (tv_usec tv)) in *.
  destruct (seconds_double_accurate s u) as (v & Hv & _ & Hb);
    try (change (2 ^ 32) with 4294967296; lia).
  exists v. split; [ exact Hv | ].
  apply Qabs_Qle_condition in Hb.
  assert (HsQ : (0 <= inject_Z s <= 4294967295)%Q).
  { change 0%Q with (inject_Z 0). change 4294967295%Q with (inject_Z 4294967295).
    rewrite <- !Zle_Qle. lia. }
  assert (HuQ : (0 <= inject_Z u / 1000000 <= 4294967295 # 1000000)%Q).
  { split.
    - apply Qle_shift_div_l; [ reflexivity | ]. rewrite Qmult_0_l.
      change 0%Q with (inject_Z 0). rewrite <- Zle_Qle. lia.
    - apply Qle_shift_div_r; [ reflexivity | ].
      assert (E : ((4294967295 # 1000000) * 1000000 == inject_Z 4294967295)%Q)
        by reflexivity.
      rewrite E, <- Zle_Qle. lia. }
  set (x := (inject_Z u / 1000000)%Q) in *.
  unfold B64.eps, uptime_max in *. split; lra.
Qed.

End ElapsedHelpers.

(** X1: with normalised microseconds the result depends on the two
    timestamps only through their difference, and only modulo 2^32
    seconds: shifting both timestamps alike, or moving one of them by a
    multiple of 2^32 seconds, returns the same double. *)
Theorem calc_uptime_congruent (B N B' N' : timeval) :
  usec_ok B -> usec_ok N -> usec_ok B' -> usec_ok N' ->
  (micros N - micros B) mod (1000000 * 4294967296)
  = (micros N' - micros B') mod (1000000 * 4294967296) ->
  calc_uptime_at (Some N) B = calc_uptime_at (Some N') B'.
Proof.
  intros HB HN HB' HN' Hc.
  rewrite (calc_uptime_at_div_mod N B HN HB), (calc_uptime_at_div_mod N' B' HN' HB').
  set (d := micros N - micros B) in *. set (d' := micros N' - micros B') in *.
  rewrite !Z.rem_mul_r in Hc by lia.
  pose proof (Z.mod_pos_bound d 1000000 ltac:(lia)).
  pose proof (Z.mod_pos_bound d' 1000000 ltac:(lia)).
  unfold to_unsigned, unsigned_bits. change (2 ^ 32) with 4294967296.
  assert (d mod 1000000 = d' mod 1000000) by lia.
  assert ((d / 1000000) mod 4294967296 = (d' / 1000000) mod 4294967296) by lia.
  congruence.
Qed.

(** One interval of five seconds, and the same interval 2^32 seconds
    longer and started a thousand seconds later. *)
Lemma calc_uptime_congruent_witness :
  usec_ok (mk_timeval 0 500000) /\ usec_ok (mk_timeval 5 250000) /\
  usec_ok (mk_timeval 1000 500000) /\ usec_ok (mk_timeval 4294968301 250000) /\
  calc_uptime_at (Some (mk_timeval 5 250000)) (mk_timeval 0 500000)
  = calc_uptime_at (Some (mk_timeval 4294968301 250000)) (mk_timeval 1000 500000).
Proof.
  assert (H1 : usec_ok (mk_timeval 0 500000)) by (unfold usec_ok; cbn; lia).
  assert (H2 : usec_ok (mk_timeval 5 250000)) by (unfold usec_ok; cbn; lia).
  assert (H3 : usec_ok (mk_timeval 1000 500000)) by (unfold usec_ok; cbn; lia).
  assert (H4 : usec_ok (mk_timeval 4294968301 250000)) by (unfold usec_ok; cbn; lia).
  repeat (split; [ assumption | ]).
  apply (calc_uptime_congruent _ _ _ _ H1 H2 H3 H4). reflexivity.
Defined.

(** X2: when the two microsecond fields are equal and the seconds are
    less than 2^32 apart, the double returned is the number of seconds
    exactly, with no rounding. *)
Theorem calc_uptime_whole_seconds (B N : timeval) :
  usec_ok B -> usec_ok N ->
  tv_usec N = tv_usec B ->
  0 <= tv_sec N - tv_sec B < 4294967296 ->
  B64.has_value (calc_uptime_at (Some N) B) (inject_Z (tv_sec N - tv_sec B)).
Proof.
  intros HB HN Hu Hs.
  rewrite (calc_uptime_at_div_mod N B HN HB).
  assert (Hd : micros N - micros B = (tv_sec N - tv_sec B) * 1000000)
    by (unfold micros; lia).
  rewrite Hd, Z.div_mul, Z.mod_mul by lia.
  rewrite (to_unsigned_small _ Hs).
  apply seconds_double_whole. exact Hs.
Qed.

Lemma calc_uptime_whole_seconds_witness :
  usec_ok (mk_timeval 1000 123456) /\ usec_ok (mk_timeval 87400 123456) /\
  B64.has_value
    (calc_uptime_at (Some (mk_timeval 87400 123456)) (mk_timeval 1000 123456)) 86400.
Proof.
  assert (H1 : usec_ok (mk_timeval 1000 123456)) by (unfold usec_ok; cbn; lia).
  assert (H2 : usec_ok (mk_timeval 87400 123456)) by (unfold usec_ok; cbn; lia).
  split; [ exact H1 | ]. split; [ exact H2 | ].
  apply (calc_uptime_whole_seconds _ _ H1 H2); cbn; lia.
Defined.

(** X3: for one boot time and two clock readings at least a microsecond
    apart, both less than 2^32 seconds after boot, the later reading gives
    the strictly larger double: uptimes that differ by a microsecond never
    collide or swap. *)
Theorem calc_uptime_strictly_increasing (B N1 N2 : timeval) :
  usec_ok B -> usec_ok N1 -> usec_ok N2 ->
  micros B <= micros N1 -> micros N1 < micros N2 ->
  micros N2 - micros B < 4294967296 * 1000000 ->
  exists v1 v2,
    B64.value (calc_uptime_at (Some N1) B) = Some v1 /\
    B64.value (calc_uptime_at (Some N2) B) = Some v2 /\
    (v1 < v2)%Q.
Proof.
  intros HB H1 H2 Hle Hlt Hmax.
  destruct (calc_uptime_at_elapsed_accurate N1 B H1 HB ltac:(lia)) as (v1 & E1 & A1).
  destruct (calc_uptime_at_elapsed_accurate N2 B H2 HB ltac:(lia)) as (v2 & E2 & A2).
  exists v1, v2. split; [ exact E1 | ]. split; [ exact E2 | ].
  apply Qabs_Qlt_condition in A1. apply Qabs_Qlt_condition in A2.
  unfold elapsed_seconds in *.
  set (d1 := micros N1 - micros B) in *. set (d2 := micros N2 - micros B) in *.
  assert (Hstep : ((d1 # 1000000) + (1 # 1000000) <= d2 # 1000000)%Q).
  { unfold Qle, Qplus. cbn [Qnum Qden]. nia. }
  lra.
Qed.

Lemma calc_uptime_strictly_increasing_witness :
  usec_ok (mk_timeval 1000 500000) /\ usec_ok (mk_timeval 1005 250000) /\
  usec_ok (mk_timeval 1005 250001) /\
  exists v1 v2,
    B64.value (calc_uptime_at (Some (mk_timeval 1005 250000)) (mk_timeval 1000 500000))
      = Some v1 /\
    B64.value (calc_uptime_at (Some (mk_timeval 1005 250001)) (mk_timeval 1000 500000))
      = Some v2 /\
    (v1 < v2)%Q.
Proof.
  assert (H0 : usec_ok (mk_timeval 1000 500000)) by (unfold usec_ok; cbn; lia).
  assert (H1 : usec_ok (mk_timeval 1005 250000)) by (unfold usec_ok; cbn; lia).
  assert (H2 : usec_ok (mk_timeval 1005 250001)) by (unfold usec_ok; cbn; lia).
  repeat (split; [ assumption | ]).
  apply (calc_uptime_strictly_increasing _ _ _ H0 H1 H2); cbn; lia.
Defined.

(** X12: lines 27-33 are an exact subtraction.  For normalised
    microseconds and seconds whose difference fits [time_t], in either
    order of the two timestamps and on both branches, the result is the one
    timestamp with a normalised microsecond field that denotes [tv - bt]. *)
Theorem timeval_sub_exact (tv bt : timeval) :
  usec_ok tv -> usec_ok bt ->
  - 2 ^ 63 < tv_sec tv - tv_sec bt < 2 ^ 63 ->
  usec_ok (timeval_sub tv bt) /\
  micros (timeval_sub tv bt) = micros tv - micros bt /\
  (forall t, usec_ok t -> micros t = micros tv - micros bt -> t = timeval_sub tv bt).
Proof.
  intros Htv Hbt Hd.
  change (2 ^ 63) with 9223372036854775808 in Hd.
  assert (Hfit : in_long ((micros tv - micros bt) / 1000000)).
  { unfold usec_ok in *. unfold in_long, micros.
    change (2 ^ 63) with 9223372036854775808. split.
    - apply Z.div_le_lower_bound; lia.
    - apply Z.div_lt_upper_bound; lia. }
  rewrite (timeval_sub_div_mod tv bt Htv Hbt Hfit).
  set (d := micros tv - micros bt).
  pose proof (Z.mod_pos_bound d 1000000 ltac:(lia)) as Hm.
  pose proof (Z.div_mod d 1000000 ltac:(lia)) as Hdm.
  split; [ exact Hm | ]. split; [ unfold micros at 1; cbn [tv_sec tv_usec]; lia | ].
  intros [ts tu] Ht Hmic. unfold usec_ok, micros in Ht, Hmic. cbn [tv_sec tv_usec] in *.
  f_equal.
  - apply (Z.div_unique_pos _ _ _ tu); lia.
  - apply (Z.mod_unique_pos _ _ ts); lia.
Qed.

(** Boot after the clock: -0.75 s is (-1, 250000). *)
Lemma timeval_sub_exact_witness :
  usec_ok (mk_timeval 1000 500000) /\ usec_ok (mk_timeval 1001 250000) /\
  - 2 ^ 63 < tv_sec (mk_timeval 1000 500000) - tv_sec (mk_timeval 1001 250000) < 2 ^ 63 /\
  micros (timeval_sub (mk_timeval 1000 500000) (mk_timeval 1001 250000)) = - 750000.
Proof.
  assert (H1 : usec_ok (mk_timeval 1000 500000)) by (unfold usec_ok; cbn; lia).
  assert (H2 : usec_ok (mk_timeval 1001 250000)) by (unfold usec_ok; cbn; lia).
  assert (H3 : - 2 ^ 63 < tv_sec (mk_timeval 1000 500000) - tv_sec (mk_timeval 1001 250000)
               < 2 ^ 63) by (cbn; lia).
  repeat (split; [ assumption | ]).
  exact (proj1 (proj2 (timeval_sub_exact _ _ H1 H2 H3))).
Defined.

(** X4: a boot timestamp whose microsecond field exceeds the current one
    by more than 10^6 is neither rejected nor normalised: the microsecond
    delta is negative, the cast makes it 2^32 + delta, and the double
    returned exceeds 2147 seconds however close the two timestamps are. *)
Theorem calc_uptime_denormal_usec (B N : timeval) :
  usec_ok N ->
  1000000 + tv_usec N < tv_usec B < 2147483648 ->
  let du := 1000000 - tv_usec B + tv_usec N in
  tv_usec (timeval_sub N B) = du /\
  du < 0 /\
  to_unsigned du = 4294967296 + du /\
  exists v, B64.value (calc_uptime_at (Some N) B) = Some v /\ (2147 < v)%Q.
Proof.
  intros HN HB du. unfold usec_ok in HN.
  assert (Hdu : tv_usec (timeval_sub N B) = du).
  { unfold timeval_sub.
    destruct (Z.ltb_spec (tv_usec N) (tv_usec B)); [ | lia ]. cbn [tv_usec].
    rewrite (to_long_small (1000000 - tv_usec B)) by fits_long.
    rewrite to_long_small by fits_long. reflexivity. }
  assert (Hun : to_unsigned du = 4294967296 + du).
  { unfold to_unsigned, unsigned_bits. change (2 ^ 32) with 4294967296.
    symmetry. apply (Z.mod_unique_pos _ _ (-1)); unfold du; lia. }
  split; [ exact Hdu | ]. split; [ unfold du; lia | ]. split; [ exact Hun | ].
  unfold calc_uptime_at, timeval_double. rewrite Hdu, Hun.
  pose proof (to_unsigned_range (tv_sec (timeval_sub N B))) as Hs.
  set (s := to_unsigned (tv_sec (timeval_sub N B))) in *.
  set (u := 4294967296 + du).
  assert (Hu : 2148483648 < u < 4294967296) by (unfold u, du; lia).
  destruct (Rounding.seconds_double_accurate s u) as (v & Hv & _ & Hb);
    try (change (2 ^ 32) with 4294967296; lia).
  exists v. split; [ exact Hv | ].
  apply Qabs_Qle_condition in Hb.
  assert (HsQ : (0 <= inject_Z s)%Q)
    by (change 0%Q with (inject_Z 0); rewrite <- Zle_Qle; lia).
  assert (HuQ : (2148 <= inject_Z u / 1000000)%Q).
  { apply Qle_shift_div_l; [ reflexivity | ].
    change (2148 * 1000000)%Q with (inject_Z 2148000000). rewrite <- Zle_Qle. lia. }
  set (x := (inject_Z u / 1000000)%Q) in *.
  unfold B64.eps in *. lra.
Qed.

(** Three seconds of uptime read as more than 4297 seconds. *)
Lemma calc_uptime_denormal_usec_witness :
  usec_ok (mk_timeval 1005 0) /\
  1000000 + tv_usec (mk_timeval 1005 0) < tv_usec (mk_timeval 1000 2000000) < 2147483648 /\
  tv_usec (timeval_sub (mk_timeval 1005 0) (mk_timeval 1000 2000000)) = -1000000 /\
  exists v, B64.value (calc_uptime_at (Some (mk_timeval 1005 0)) (mk_timeval 1000 2000000))
            = Some v /\ (2147 < v)%Q.
Proof.
  assert (H1 : usec_ok (mk_timeval 1005 0)) by (unfold usec_ok; cbn; lia).
  assert (H2 : 1000000 + tv_usec (mk_timeval 1005 0)
               < tv_usec (mk_timeval 1000 2000000) < 2147483648) by (cbn; lia).
  split; [ exact H1 | ]. split; [ exact H2 | ].
  destruct (calc_uptime_denormal_usec _ _ H1 H2) as (E & _ & _ & Hv).
  split; [ exact E | exact Hv ].
Defined.

(* ------------------------------------------------------------------ *)
(** ** More on the entry points *)

Lemma calc_uptime_at_ranged s bt :
  ranged s (PyFloat (calc_uptime_at (wall_clock s) bt)).
Proof.
  unfold ranged. destruct (wall_clock s) as [tv |]; cbn [calc_uptime_at].
  - apply timeval_double_range.
  - eexists. split; [ reflexivity | ]. vm_compute. reflexivity.
Qed.

(** X5: whenever either entry point returns a number, that number is
    -1 if [gettimeofday] failed and lies between 0 and 4294971590
    otherwise: a successful uptime is never negative, so the host can tell
    the failure from a result by its sign. *)
Theorem uptime_number_range (s : os_state) :
  (forall abi, ranged s (run (_uptime_posix abi) s)) /\
  (forall bt0, ranged s (run (_uptime_osx bt0) s)).
Proof.
  split.
  - intros abi. unfold run. rewrite uptime_posix_unfold.
    destruct (fst (getutxid boot_id s)) as [r |] eqn:E; unfold run; rewrite E; cbn [fst].
    + apply calc_uptime_at_ranged.
    + exact I.
  - intros bt0. unfold run. rewrite uptime_osx_unfold.
    destruct (kern_boottime s) as [v |]; [ | exact I ].
    destruct (sizeof_timeval <? Z.of_nat (List.length v)); cbn [fst].
    + exact I.
    + apply calc_uptime_at_ranged.
Qed.






Lemma scan_find p l : forall n, option_map fst (scan p l n) = List.find p l.
Proof.
  induction l as [| r l IH]; intros n; cbn; [ reflexivity | ].
  destruct (p r); [ reflexivity | apply IH ].
Qed.

Lemma getutxid_closed_find id s :
  utx_handle s = None ->
  run (getutxid id) s =
  match utx_file s with
  | None => None
  | Some db => List.find (utx_match id) db
  end.
Proof.
  intros Hh. unfold run, getutxid. cbn [utx_file utx_handle log_call]. rewrite Hh.
  destruct (utx_file s) as [db |]; [ | reflexivity ].
  cbn [List.skipn]. rewrite <- (scan_find (utx_match id) db O).
  destruct (scan (utx_match id) db O) as [[r pos'] |]; reflexivity.
Qed.

(** X8: a call leaves the database closed, so the next call reads it
    from the start: whatever position the first call started from and
    whatever the clock shows by then, the second call computes its result
    from the bytes line 80 copies out of the first [BOOT_TIME] entry of
    the whole database. *)
Theorem uptime_posix_second_call (abi : utmpx_abi) (s : os_state) (c : option timeval) :
  run (_uptime_posix abi) (set_clock c (after (_uptime_posix abi) s)) =
  match utx_file s with
  | None => Py_None
  | Some db =>
      match List.find (utx_match boot_id) db with
      | None => Py_None
      | Some r => PyFloat (calc_uptime_at c (memcpy_ut_tv abi r))
      end
  end.
Proof.
  pose proof (uptime_posix_unfold s abi) as Hu. cbv zeta in Hu.
  destruct (getutxid_frame s boot_id) as (_ & _ & Hf & _).
  assert (Hs : utx_file (after (_uptime_posix abi) s) = utx_file s /\
               utx_handle (after (_uptime_posix abi) s) = None).
  { replace (after (_uptime_posix abi) s) with (snd (_uptime_posix abi s)) by reflexivity.
    rewrite Hu.
    destruct (run (getutxid boot_id) s); cbn [snd utx_file utx_handle set_handle log_call];
      auto. }
  destruct Hs as [Hf' Hh'].
  set (s2 := set_clock c (after (_uptime_posix abi) s)).
  pose proof (uptime_posix_unfold s2 abi) as Hu2. cbv zeta in Hu2.
  unfold run at 1. rewrite Hu2.
  rewrite (getutxid_closed_find boot_id s2) by exact Hh'.
  replace (utx_file s2) with (utx_file s) by (symmetry; exact Hf').
  destruct (utx_file s) as [db |]; [ | reflexivity ].
  destruct (List.find (utx_match boot_id) db); reflexivity.
Qed.

(** X10: [_uptime_osx] queries the kernel once and reads the clock only
    after that query succeeded; it never opens, reads or closes the
    accounting database. *)
Theorem uptime_osx_calls (bt0 : list Z) (s : os_state) :
  calls_made (_uptime_osx bt0) s =
  match run (_uptime_osx bt0) s with
  | Py_None => [CallSysctlbyname]
  | PyFloat _ => [CallSysctlbyname; CallGettimeofday]
  end /\
  utx_handle (after (_uptime_osx bt0) s) = utx_handle s.
Proof.
  unfold calls_made, after, run. rewrite uptime_osx_unfold.
  destruct (kern_boottime s) as [v |].
  2:{ cbn [fst snd os_trace log_call utx_handle]. split; [ | reflexivity ].
      apply skipn_length_app. }
  destruct (sizeof_timeval <? Z.of_nat (List.length v));
    cbn [fst snd os_trace log_call utx_handle]; (split; [ | reflexivity ]).
  - apply skipn_length_app.
  - rewrite <- app_assoc. apply skipn_length_app.
Qed.
(* ------------------------------------------------------------------ *)
(** ** The width of the microseconds *)

Lemma to_unsigned_to_int z : to_unsigned (to_int z) = to_unsigned z.
Proof.
  unfold to_unsigned, to_int, wrap_signed, unsigned_bits.
  change (2 ^ (32 - 1)) with 2147483648. change (2 ^ 32) with 4294967296.
  rewrite Zminus_mod_idemp_l. f_equal. lia.
Qed.

Lemma to_unsigned_add_congr a b t :
  to_unsigned a = to_unsigned b -> to_unsigned (a + t) = to_unsigned (b + t).
Proof.
  unfold to_unsigned, unsigned_bits. change (2 ^ 32) with 4294967296. intros H.
  rewrite (Zplus_mod a t), (Zplus_mod b t), H. reflexivity.
Qed.

(** X13: the double of line 35 is the same whether the microseconds of
    lines 27-33 are computed in 32 bits ([suseconds_t] on Darwin) or in
    64 (Linux): the cast to [unsigned] keeps the low 32 bits of either. *)
Theorem calc_uptime_usec_width (tv bt : timeval) :
  tv_sec (timeval_sub_int_usec tv bt) = tv_sec (timeval_sub tv bt) /\
  to_unsigned (tv_usec (timeval_sub_int_usec tv bt))
  = to_unsigned (tv_usec (timeval_sub tv bt)) /\
  timeval_double (timeval_sub_int_usec tv bt) = timeval_double (timeval_sub tv bt).
Proof.
  assert (Hu : to_unsigned (tv_usec (timeval_sub_int_usec tv bt))
               = to_unsigned (tv_usec (timeval_sub tv bt))).
  { unfold timeval_sub_int_usec, timeval_sub.
    destruct (tv_usec tv <? tv_usec bt); cbn [tv_sec tv_usec];
      rewrite to_unsigned_to_int, to_unsigned_to_long; [ | reflexivity ].
    apply to_unsigned_add_congr.
    rewrite to_unsigned_to_int, to_unsigned_to_long. reflexivity. }
  assert (Hs : tv_sec (timeval_sub_int_usec tv bt) = tv_sec (timeval_sub tv bt)).
  { unfold timeval_sub_int_usec, timeval_sub.
    destruct (tv_usec tv <? tv_usec bt); reflexivity. }
  split; [ exact Hs | ]. split; [ exact Hu | ].
  unfold timeval_double. rewrite Hs, Hu. reflexivity.
Qed.

(* ------------------------------------------------------------------ *)
(** ** From the operating system's answer to the number returned *)

Lemma bytes_of_timeval_darwin_length t :
  List.length (Mem.bytes_of_timeval_darwin t) = 16%nat.
Proof.
  unfold Mem.bytes_of_timeval_darwin.
  rewrite !List.length_app, !le_bytes_length. reflexivity.
Qed.

(** X14: when the kernel holds the boot time [B] under "kern.boottime"
    and the clock shows [N], not before [B] and less than 2^32 seconds
    after it, [_uptime_osx] returns a non-negative double within half a
    microsecond of the time elapsed, whatever the local [bt] held before
    the query. *)
Theorem uptime_osx_accurate (bt0 : list Z) (s : os_state) (B N : timeval) :
  kern_boottime s = Some (Mem.bytes_of_timeval_darwin B) ->
  wall_clock s = Some N ->
  timeval_ok B -> timeval_ok N ->
  0 <= micros N - micros B < 4294967296 * 1000000 ->
  exists d, run (_uptime_osx bt0) s = PyFloat d /\
            B64.nonneg d = true /\
            microsecond_accurate d (elapsed_seconds N B).
Proof.
  intros Hk Hc [HBs HBu] [HNs HNu] Hd.
  unfold run. rewrite uptime_osx_unfold, Hk, Hc.
  pose proof (bytes_of_timeval_darwin_length B) as Hl.
  destruct (Z.ltb_spec sizeof_timeval
              (Z.of_nat (List.length (Mem.bytes_of_timeval_darwin B)))) as [Hlt | _];
    [ unfold sizeof_timeval in Hlt; lia | ].
  cbn [fst]. rewrite timeval_of_full_buffer by exact Hl.
  rewrite timeval_darwin_round_trip;
    [ | exact HBs | unfold usec_ok in HBu; change (2 ^ 31) with 2147483648; lia ].
  eexists. split; [ reflexivity | ]. split.
  - apply (calc_uptime_at_accurate N B HNu HBu).
  - apply calc_uptime_at_elapsed_accurate; assumption.
Qed.

(** Booted at (1000, 500000), read at (1005, 250000), over a [bt] that
    held other microseconds. *)
Lemma uptime_osx_accurate_witness :
  exists d,
    run (_uptime_osx Examples.bt_stale)
        (mk_os None None (Some (mk_timeval 1005 250000))
               (Some (Mem.bytes_of_timeval_darwin (mk_timeval 1000 500000))) [])
    = PyFloat d /\
    B64.nonneg d = true /\
    microsecond_accurate d (elapsed_seconds (mk_timeval 1005 250000) (mk_timeval 1000 500000)).
Proof.
  apply (uptime_osx_accurate Examples.bt_stale _ (mk_timeval 1000 500000)
           (mk_timeval 1005 250000)).
  - reflexivity.
  - reflexivity.
  - split; [ cbn; fits_long | unfold usec_ok; cbn; lia ].
  - split; [ cbn; fits_long | unfold usec_ok; cbn; lia ].
  - cbn. lia.
Defined.


